(** * cdiocddasrc: the libcdio audio-CD source element

    A shallow embedding of [ext/cdio/gstcdiocddasrc.c].  The element is a thin
    adapter: it drives libcdio (opening a device, asking for the disc mode,
    the track table and raw audio sectors) and reports to its GStreamer base
    class (track descriptors, error messages, buffers).

    Both collaborators are outside the file.  libcdio is an interface
    ([Libcdio]) over an opaque handle type; the host side is an interface too
    ([GstHost]).  Everything the element does to them that a caller can
    observe (tracks handed to the base class, messages posted on the bus,
    log lines, calls that change the drive, buffers released) is recorded in
    the element state, oldest entry first. *)

From Stdlib Require Import ZArith List String Bool Lia.
From Stdlib.Strings Require Import Byte.
Import ListNotations.
Open Scope Z_scope.

(** ** Machine integers *)

Module GLib.

(** [gint] is a 32-bit two's complement integer, [guint] its unsigned
    counterpart; both are carried in [Z] with the wrap-around written out. *)
Definition G_MININT : Z := - 2 ^ 31.
Definition G_MAXINT : Z := 2 ^ 31 - 1.
Definition G_MAXUINT : Z := 2 ^ 32 - 1.

Definition to_gint (z : Z) : Z := (z + 2 ^ 31) mod 2 ^ 32 - 2 ^ 31.
Definition to_guint (z : Z) : Z := z mod 2 ^ 32.

Definition gboolean := bool.
Definition TRUE : gboolean := true.
Definition FALSE : gboolean := false.

End GLib.
Import GLib.

(** ** libcdio, as the element uses it *)

Inductive driver_id_t := DRIVER_UNKNOWN | DRIVER_DEVICE.

Inductive discmode_t : Set :=
| CDIO_DISC_MODE_CD_DA
| CDIO_DISC_MODE_CD_DATA
| CDIO_DISC_MODE_CD_XA
| CDIO_DISC_MODE_CD_MIXED
| CDIO_DISC_MODE_DVD_ROM
| CDIO_DISC_MODE_DVD_OTHER
| CDIO_DISC_MODE_NO_INFO
| CDIO_DISC_MODE_ERROR
| CDIO_DISC_MODE_CD_I.

Inductive track_format_t : Set :=
| TRACK_FORMAT_AUDIO
| TRACK_FORMAT_CDI
| TRACK_FORMAT_XA
| TRACK_FORMAT_DATA
| TRACK_FORMAT_PSX
| TRACK_FORMAT_ERROR.

Scheme Equality for discmode_t.
Scheme Equality for track_format_t.

Inductive cdtext_field_t := CDTEXT_PERFORMER | CDTEXT_TITLE.

(** A CD-TEXT block, seen through [cdtext_get]. *)
Definition cdtext_t := cdtext_field_t -> option string.

(** What one [cdio_read_audio_sector] call did: its return code, the bytes it
    stored at the start of the caller's buffer, and [errno] afterwards. *)
Record read_result := {
  read_rc : Z;
  read_stored : list byte;
  read_errno : Z
}.

(** Modelled from the spec: CDIO_CD_FRAMESIZE_RAW is a libcdio constant, the
    size of one raw CD-DA audio frame, 2352 bytes. *)
Definition CDIO_CD_FRAMESIZE_RAW : Z := 2352.

(** The library calls the element makes.  Integer results are the values as
    they arrive in the element's [gint] locals; a track argument is the
    [gint] value the element computes for it (its narrowing to the library's
    track number type happens behind the interface).  A null [CdIo] pointer
    is [None]; the calls that never see one here take a [CdIo]. *)
Class Libcdio (CdIo : Type) := {
  LIBCDIO_VERSION_NUM : Z;
  cdio_open : string -> driver_id_t -> option CdIo;
  cdio_open_errno : string -> Z;
  cdio_get_discmode : CdIo -> discmode_t;
  cdio_get_first_track_num : CdIo -> Z;
  cdio_get_num_tracks : CdIo -> Z;
  cdio_get_track_sec_count : CdIo -> Z -> Z;
  cdio_get_track_lsn : CdIo -> Z -> Z;
  cdio_get_track_format : CdIo -> Z -> track_format_t;
  cdio_get_cdtext : CdIo -> Z -> option cdtext_t;
  cdio_set_speed : CdIo -> Z -> Z;
  cdio_read_audio_sector : option CdIo -> Z -> read_result;
  cdio_get_default_device : option CdIo -> option string;
  cdio_get_devices : driver_id_t -> option (list string)
}.

(** ** The GStreamer side *)

Definition GstFlowReturn := Z.
Definition GST_FLOW_OK : GstFlowReturn := 0.

(** A buffer is its payload: GST_BUFFER_DATA over GST_BUFFER_SIZE bytes. *)
Definition GstBuffer := list byte.

Inductive GstTag := GST_TAG_ARTIST | GST_TAG_TITLE.
Definition GstTagList := list (GstTag * string).

(** [gst_pad_alloc_buffer] on the source pad, for a requested size (offset
    and caps are fixed by the caller): the flow return and, when that is
    GST_FLOW_OK, the buffer. *)
Class GstHost := {
  gst_pad_alloc_buffer : Z -> GstFlowReturn * GstBuffer
}.

(** The base class's track descriptor (gstcddabasesrc.h); [num], [start] and
    [end] are [guint] there. *)
Record GstCddaBaseSrcTrack := {
  is_audio : gboolean;
  num : Z;
  start : Z;
  end_ : Z;
  tags : option GstTagList
}.

(** GST_ELEMENT_ERROR: every error of this element is in the RESOURCE domain;
    the debug string is kept as its format and arguments. *)
Inductive GstResourceError := GST_RESOURCE_ERROR_OPEN_READ | GST_RESOURCE_ERROR_READ.

Inductive ErrorDebug :=
| debug_cdio_open_failed (errno : Z)
| debug_discmode (d : discmode_t)
| debug_read_audio_sector_failed (sector : Z) (errno : Z).

Record GstMessage := {
  error_code : GstResourceError;
  error_text : string;
  error_debug : ErrorDebug
}.

Inductive GstDebugLevel := GST_LEVEL_WARNING | GST_LEVEL_DEBUG | GST_LEVEL_LOG.

(** The log statements of the file, one constructor each. *)
Inductive LogLine :=
| log_returning_default_device (ret : option string)
| log_no_devices_found
| log_device (d : string)
| log_pad_alloc_failed (ret : GstFlowReturn)
| log_read_failed (sector : Z)
| log_no_cdtext
| log_cdtext_unsupported (version : Z)
| log_trying_to_open (device : string)
| log_discmode (d : discmode_t)
| log_speed_unsupported (version : Z)
| log_tracks (num_tracks first_track : Z)
| log_invalid_property_id (prop_id : Z).

Definition log_level (l : LogLine) : GstDebugLevel :=
  match l with
  | log_read_failed _ | log_speed_unsupported _ | log_invalid_property_id _ =>
      GST_LEVEL_WARNING
  | log_no_devices_found | log_device _ | log_pad_alloc_failed _
  | log_no_cdtext | log_cdtext_unsupported _ => GST_LEVEL_DEBUG
  | log_returning_default_device _ | log_trying_to_open _ | log_discmode _
  | log_tracks _ _ => GST_LEVEL_LOG
  end.

Definition is_warning (l : LogLine) : bool :=
  match log_level l with GST_LEVEL_WARNING => true | _ => false end.

(** Calls that act on the drive behind a handle. *)
Inductive DriveCall (CdIo : Type) :=
| call_set_speed (p : CdIo) (speed : Z)
| call_destroy (p : CdIo).
Arguments call_set_speed {CdIo} p speed.
Arguments call_destroy {CdIo} p.

(** ** The element *)

(** [cdio] and [read_speed] are the two fields of the instance struct.  The
    other fields are the element's effects on its surroundings. *)
Record GstCdioCddaSrc (CdIo : Type) := {
  cdio : option CdIo;
  read_speed : Z;
  tracks : list GstCddaBaseSrcTrack;
  bus : list GstMessage;
  log : list LogLine;
  drive : list (DriveCall CdIo);
  unreffed : list GstBuffer
}.
Arguments cdio {CdIo} _.
Arguments read_speed {CdIo} _.
Arguments tracks {CdIo} _.
Arguments bus {CdIo} _.
Arguments log {CdIo} _.
Arguments drive {CdIo} _.
Arguments unreffed {CdIo} _.

Definition DEFAULT_READ_SPEED : Z := -1.

Definition PROP0 : Z := 0.
Definition PROP_READ_SPEED : Z := 1.

(** State threaded through a call; [None] is a failed [g_assert] (abort). *)
Definition M (CdIo A : Type) : Type :=
  GstCdioCddaSrc CdIo -> option (A * GstCdioCddaSrc CdIo).

Definition ret {CdIo A} (a : A) : M CdIo A := fun src => Some (a, src).

Definition bind {CdIo A B} (m : M CdIo A) (k : A -> M CdIo B) : M CdIo B :=
  fun src => match m src with
             | Some (a, src') => k a src'
             | None => None
             end.

Declare Scope src_scope.
Delimit Scope src_scope with src.
Notation "x <- m ;; k" := (bind m (fun x => k))
  (at level 100, m at next level, right associativity) : src_scope.
Notation "m ;;; k" := (bind m (fun _ => k))
  (at level 100, right associativity) : src_scope.
Open Scope src_scope.

Section Element.

Context {CdIo : Type} {L : Libcdio CdIo} {H : GstHost}.

Definition g_assert (b : bool) : M CdIo unit :=
  fun src => if b then Some (tt, src) else None.

Definition get_cdio : M CdIo (option CdIo) := fun src => Some (cdio src, src).

Definition get_read_speed : M CdIo Z := fun src => Some (read_speed src, src).

Definition set_cdio (p : option CdIo) : M CdIo unit := fun src =>
  Some (tt, {| cdio := p; read_speed := read_speed src; tracks := tracks src;
               bus := bus src; log := log src; drive := drive src;
               unreffed := unreffed src |}).

Definition set_read_speed (v : Z) : M CdIo unit := fun src =>
  Some (tt, {| cdio := cdio src; read_speed := v; tracks := tracks src;
               bus := bus src; log := log src; drive := drive src;
               unreffed := unreffed src |}).

(** GST_LOG_OBJECT, GST_DEBUG_OBJECT, GST_WARNING_OBJECT and the GLib warning
    for an unknown property id; the level is [log_level] of the line. *)
Definition GST_LOG (l : LogLine) : M CdIo unit := fun src =>
  Some (tt, {| cdio := cdio src; read_speed := read_speed src;
               tracks := tracks src; bus := bus src; log := log src ++ [l];
               drive := drive src; unreffed := unreffed src |}).

Definition GST_ELEMENT_ERROR (c : GstResourceError) (text : string)
    (dbg : ErrorDebug) : M CdIo unit := fun src =>
  Some (tt, {| cdio := cdio src; read_speed := read_speed src;
               tracks := tracks src;
               bus := bus src ++ [{| error_code := c; error_text := text;
                                     error_debug := dbg |}];
               log := log src; drive := drive src;
               unreffed := unreffed src |}).

Definition drive_call (c : DriveCall CdIo) : M CdIo unit := fun src =>
  Some (tt, {| cdio := cdio src; read_speed := read_speed src;
               tracks := tracks src; bus := bus src; log := log src;
               drive := drive src ++ [c]; unreffed := unreffed src |}).

Definition gst_buffer_unref (buf : GstBuffer) : M CdIo unit := fun src =>
  Some (tt, {| cdio := cdio src; read_speed := read_speed src;
               tracks := tracks src; bus := bus src; log := log src;
               drive := drive src; unreffed := unreffed src ++ [buf] |}).

(** The base class keeps the descriptors it is handed, in order. *)
Definition gst_cdda_base_src_add_track (t : GstCddaBaseSrcTrack) : M CdIo unit :=
  fun src =>
  Some (tt, {| cdio := cdio src; read_speed := read_speed src;
               tracks := tracks src ++ [t]; bus := bus src; log := log src;
               drive := drive src; unreffed := unreffed src |}).

(** A loop whose body runs once per element, in order.  [upto n] lists the
    values [i] takes in [for (i = 0; i < n; ++i)]; neither [i] nor the bound
    is assigned in the loop bodies of this file. *)
Fixpoint for_each {T} (body : T -> M CdIo unit) (l : list T) : M CdIo unit :=
  match l with
  | [] => ret tt
  | x :: rest => body x ;;; for_each body rest
  end.

Definition upto (n : Z) : list Z := map Z.of_nat (seq 0 (Z.to_nat n)).

(** *** gst_cdio_cdda_src_get_default_device *)

Definition gst_cdio_cdda_src_get_default_device : M CdIo (option string) :=
  p <- get_cdio ;;
  let default_device := cdio_get_default_device p in
  let ret_ := default_device in
  GST_LOG (log_returning_default_device ret_) ;;;
  ret ret_.

(** *** gst_cdio_cdda_src_probe_devices

    A [char **] result is [None] for NULL and otherwise the strings before
    the terminating NULL entry. *)

Definition g_strdupv (v : list string) : list string := v.

Definition gst_cdio_cdda_src_probe_devices : M CdIo (option (list string)) :=
  let devices := cdio_get_devices DRIVER_DEVICE in
  match devices with
  | None => GST_LOG log_no_devices_found ;;; ret None
  | Some [] => GST_LOG log_no_devices_found ;;; ret None
  | Some ds =>
      let ret_ := g_strdupv ds in
      for_each (fun d => GST_LOG (log_device d)) ds ;;;
      ret (Some ret_)
  end.

(** *** gst_cdio_cdda_src_read_sector *)

(** The library stores into the buffer it is given; the buffer keeps its
    size. *)
Definition store_at_start (buf stored : list byte) : list byte :=
  firstn (List.length buf) stored ++ skipn (List.length stored) buf.

Definition gst_cdio_cdda_src_read_sector (sector : Z) : M CdIo (option GstBuffer) :=
  let (flowret, buf) := gst_pad_alloc_buffer CDIO_CD_FRAMESIZE_RAW in
  if negb (flowret =? GST_FLOW_OK) then
    GST_LOG (log_pad_alloc_failed flowret) ;;;
    ret None
  else
    p <- get_cdio ;;
    let r := cdio_read_audio_sector p sector in
    let buf := store_at_start buf (read_stored r) in
    if negb (read_rc r =? 0) then
      GST_LOG (log_read_failed sector) ;;;
      GST_ELEMENT_ERROR GST_RESOURCE_ERROR_READ "Could not read from CD."
        (debug_read_audio_sector_failed sector (read_errno r)) ;;;
      gst_buffer_unref buf ;;;
      ret None
    else
      ret (Some buf).

(** *** Track enumeration helpers *)

Definition notcdio_track_is_audio_track (p_cdio : CdIo) (i_track : Z) : gboolean :=
  track_format_t_beq (cdio_get_track_format p_cdio i_track) TRACK_FORMAT_AUDIO.

(** Modelled from the spec: gst_cdio_add_cdtext_field is defined in gstcdio.c,
    which is not among the sources at hand.  A CD-TEXT field that is present
    is added to the tag list under the given tag (the list is created on
    first use); an absent field adds nothing. *)
Definition gst_cdio_add_cdtext_field (t : cdtext_t) (field : cdtext_field_t)
    (tag : GstTag) (tags : option GstTagList) : option GstTagList :=
  match t field with
  | Some txt => Some (match tags with Some l => l | None => [] end ++ [(tag, txt)])
  | None => tags
  end.

(** The two variants are selected by LIBCDIO_VERSION_NUM >= 76 at compile
    time.  [p] is [src->cdio], which is not null where this is called. *)
Definition gst_cdio_cdda_src_get_cdtext (p : CdIo) (i_track : Z)
    : M CdIo (option GstTagList) :=
  if 76 <=? LIBCDIO_VERSION_NUM then
    match cdio_get_cdtext p i_track with
    | None => GST_LOG log_no_cdtext ;;; ret None
    | Some t =>
        let tags := None in
        let tags := gst_cdio_add_cdtext_field t CDTEXT_PERFORMER GST_TAG_ARTIST tags in
        let tags := gst_cdio_add_cdtext_field t CDTEXT_TITLE GST_TAG_TITLE tags in
        ret tags
    end
  else
    GST_LOG (log_cdtext_unsupported LIBCDIO_VERSION_NUM) ;;;
    ret None.

(** *** gst_cdio_cdda_src_open *)

(** One turn of the track loop, for loop counter [i]. *)
Definition open_track (p : CdIo) (first_track i : Z) : M CdIo unit :=
  let len_sectors := cdio_get_track_sec_count p (to_gint (i + first_track)) in
  let track_num := to_guint (to_gint (i + first_track)) in
  let track_is_audio := notcdio_track_is_audio_track p (to_gint (i + first_track)) in
  let track_start := to_guint (cdio_get_track_lsn p (to_gint (i + first_track))) in
  let track_end := to_guint (track_start + len_sectors - 1) in
  track_tags <- gst_cdio_cdda_src_get_cdtext p (to_gint (i + first_track)) ;;
  gst_cdda_base_src_add_track
    {| is_audio := track_is_audio; num := track_num; start := track_start;
       end_ := track_end; tags := track_tags |}.

Definition is_null {T} (p : option T) : bool :=
  match p with None => true | Some _ => false end.

Definition gst_cdio_cdda_src_open (device : option string) : M CdIo gboolean :=
  g_assert (negb (is_null device)) ;;;
  p0 <- get_cdio ;;
  g_assert (is_null p0) ;;;
  match device with
  | None => ret FALSE (* not reached: the first assertion has failed *)
  | Some device =>
  GST_LOG (log_trying_to_open device) ;;;
  set_cdio (cdio_open device DRIVER_UNKNOWN) ;;;
  p1 <- get_cdio ;;
  match p1 with
  | None =>
      GST_ELEMENT_ERROR GST_RESOURCE_ERROR_OPEN_READ
        "Could not open CD device for reading."
        (debug_cdio_open_failed (cdio_open_errno device)) ;;;
      ret FALSE
  | Some p =>
      let discmode := cdio_get_discmode p in
      GST_LOG (log_discmode discmode) ;;;
      if negb (discmode_t_beq discmode CDIO_DISC_MODE_CD_DA)
         && negb (discmode_t_beq discmode CDIO_DISC_MODE_CD_MIXED) then
        GST_ELEMENT_ERROR GST_RESOURCE_ERROR_OPEN_READ
          "Disc is not an Audio CD." (debug_discmode discmode) ;;;
        ret FALSE
      else
        let first_track := cdio_get_first_track_num p in
        let num_tracks := cdio_get_num_tracks p in
        if (num_tracks <=? 0) || (first_track <? 0) then
          ret TRUE
        else
          speed <- get_read_speed ;;
          (if negb (speed =? -1) then
             if 76 <=? LIBCDIO_VERSION_NUM then
               speed' <- get_read_speed ;;
               drive_call (call_set_speed p speed')
             else
               GST_LOG (log_speed_unsupported LIBCDIO_VERSION_NUM)
           else ret tt) ;;;
          GST_LOG (log_tracks num_tracks first_track) ;;;
          for_each (open_track p first_track) (upto num_tracks) ;;;
          ret TRUE
  end
  end.

(** *** gst_cdio_cdda_src_close *)

Definition gst_cdio_cdda_src_close : M CdIo unit :=
  p <- get_cdio ;;
  g_assert (negb (is_null p)) ;;;
  p' <- get_cdio ;;
  match p' with
  | Some h => drive_call (call_destroy h) ;;; set_cdio None
  | None => ret tt
  end.

(** *** gst_cdio_cdda_src_init *)

Definition gst_cdio_cdda_src_init : GstCdioCddaSrc CdIo :=
  {| cdio := None; read_speed := DEFAULT_READ_SPEED; tracks := []; bus := [];
     log := []; drive := []; unreffed := [] |}.

(** *** Properties *)

Record GParamSpecInt := {
  pspec_name : string;
  minimum : Z;
  maximum : Z;
  default_value : Z
}.

(** The property installed by gst_cdio_cdda_src_class_init. *)
Definition gst_cdio_cdda_src_class_init : list (Z * GParamSpecInt) :=
  [ (PROP_READ_SPEED,
     {| pspec_name := "read-speed"; minimum := -1; maximum := 100;
        default_value := DEFAULT_READ_SPEED |}) ].

Definition gst_cdio_cdda_src_set_property (prop_id : Z) (value : Z) : M CdIo unit :=
  if prop_id =? PROP_READ_SPEED then
    let speed := value in
    set_read_speed speed
  else
    GST_LOG (log_invalid_property_id prop_id).

(** The result is what is stored into the caller's GValue, if anything. *)
Definition gst_cdio_cdda_src_get_property (prop_id : Z) : M CdIo (option Z) :=
  if prop_id =? PROP_READ_SPEED then
    speed <- get_read_speed ;;
    ret (Some speed)
  else
    GST_LOG (log_invalid_property_id prop_id) ;;;
    ret None.

End Element.

(** ** What a call hands over, as values *)

Section Descriptors.

Context {CdIo : Type} {L : Libcdio CdIo}.

(** The tag list [gst_cdio_cdda_src_get_cdtext] returns. *)
Definition cdtext_tags (p : CdIo) (i_track : Z) : option GstTagList :=
  if 76 <=? LIBCDIO_VERSION_NUM then
    match cdio_get_cdtext p i_track with
    | None => None
    | Some t =>
        gst_cdio_add_cdtext_field t CDTEXT_TITLE GST_TAG_TITLE
          (gst_cdio_add_cdtext_field t CDTEXT_PERFORMER GST_TAG_ARTIST None)
    end
  else None.

(** The descriptor the loop of [gst_cdio_cdda_src_open] builds at counter [i]. *)
Definition track_descriptor (p : CdIo) (first_track i : Z) : GstCddaBaseSrcTrack :=
  let n := to_gint (i + first_track) in
  let s := to_guint (cdio_get_track_lsn p n) in
  {| is_audio := notcdio_track_is_audio_track p n;
     num := to_guint n;
     start := s;
     end_ := to_guint (s + cdio_get_track_sec_count p n - 1);
     tags := cdtext_tags p n |}.

Definition audio_discmode (d : discmode_t) : bool :=
  discmode_t_beq d CDIO_DISC_MODE_CD_DA || discmode_t_beq d CDIO_DISC_MODE_CD_MIXED.

(** A valid audio disc, as the library reports it: an audio or mixed-mode
    disc with at least one track, numbered from a non-negative first track
    within [gint]; every track starts at a non-negative sector, is at least
    one sector long and ends within [guint]; and a track does not start
    before the previous one is over. *)
Definition valid_audio_disc (p : CdIo) : bool :=
  let first_track := cdio_get_first_track_num p in
  let num_tracks := cdio_get_num_tracks p in
  let lsn i := cdio_get_track_lsn p (first_track + i) in
  let len i := cdio_get_track_sec_count p (first_track + i) in
  audio_discmode (cdio_get_discmode p)
  && (0 <? num_tracks) && (0 <=? first_track)
  && (first_track + num_tracks - 1 <=? G_MAXINT)
  && forallb (fun i => (0 <=? lsn i) && (1 <=? len i)
                       && (lsn i + len i - 1 <=? G_MAXUINT))
             (upto num_tracks)
  && forallb (fun i => lsn i + len i <=? lsn (i + 1)) (upto (num_tracks - 1)).

Definition warnings (src : GstCdioCddaSrc CdIo) : list LogLine :=
  filter is_warning (log src).

(** What the read-speed block of [gst_cdio_cdda_src_open] does for a
    configured [speed]: a call into the drive when the library is recent
    enough, a warning when it is not, nothing for -1. *)
Definition speed_calls (p : CdIo) (speed : Z) : list (DriveCall CdIo) :=
  if negb (speed =? -1) && (76 <=? LIBCDIO_VERSION_NUM)
  then [call_set_speed p speed] else [].

Definition speed_warnings (speed : Z) : list LogLine :=
  if negb (speed =? -1) && negb (76 <=? LIBCDIO_VERSION_NUM)
  then [log_speed_unsupported LIBCDIO_VERSION_NUM] else [].

(** Two states that differ at most in their log, and there in no warning. *)
Definition same_but_log (a b : GstCdioCddaSrc CdIo) : Prop :=
  cdio a = cdio b /\ read_speed a = read_speed b /\ tracks a = tracks b /\
  bus a = bus b /\ drive a = drive b /\ unreffed a = unreffed b /\
  warnings a = warnings b.

(** The error message a failed sector read posts. *)
Definition read_failure (sector cause : Z) : GstMessage :=
  {| error_code := GST_RESOURCE_ERROR_READ;
     error_text := "Could not read from CD.";
     error_debug := debug_read_audio_sector_failed sector cause |}.

Definition in_track_range (src : GstCdioCddaSrc CdIo) (sector : Z) : Prop :=
  exists t, In t (tracks src) /\ start t <= sector <= end_ t.

End Descriptors.

(** ** The host's property system

    The element never sees a property write directly: the host checks the
    value against the installed param spec and then calls
    [gst_cdio_cdda_src_set_property]. *)

Inductive RangePolicy := Reject | Clamp.

(** Modelled from the spec: the host's range check is outside this
    repository; an out-of-range value is either rejected or clamped into
    the param spec's range, by one policy.  [None] is a rejected write. *)
Definition g_param_value_validate (policy : RangePolicy) (pspec : GParamSpecInt)
    (v : Z) : option Z :=
  match policy with
  | Reject => if (minimum pspec <=? v) && (v <=? maximum pspec) then Some v else None
  | Clamp => Some (Z.max (minimum pspec) (Z.min v (maximum pspec)))
  end.

Definition find_property (prop_id : Z) (installed : list (Z * GParamSpecInt))
    : option GParamSpecInt :=
  match find (fun e => fst e =? prop_id) installed with
  | Some e => Some (snd e)
  | None => None
  end.

Section HostProperties.

Context {CdIo : Type}.

Definition g_object_set_property (policy : RangePolicy) (prop_id : Z) (v : Z)
    : M CdIo unit :=
  match find_property prop_id gst_cdio_cdda_src_class_init with
  | None => ret tt
  | Some pspec =>
      match g_param_value_validate policy pspec v with
      | Some v' => gst_cdio_cdda_src_set_property prop_id v'
      | None => ret tt
      end
  end.

Definition g_object_get_property (prop_id : Z) : M CdIo (option Z) :=
  match find_property prop_id gst_cdio_cdda_src_class_init with
  | None => ret None
  | Some _ => gst_cdio_cdda_src_get_property prop_id
  end.

Definition read_speed_in_range (src : GstCdioCddaSrc CdIo) : Prop :=
  -1 <= read_speed src <= 100.

End HostProperties.

(** ** The element's life, call by call *)

Section Lifecycle.

Context {CdIo : Type} {L : Libcdio CdIo} {H : GstHost}.

(** One call from the host into the element. *)
Inductive HostCall :=
| host_open (device : option string)
| host_close
| host_read_sector (sector : Z)
| host_probe_devices
| host_get_default_device
| host_set_property (prop_id v : Z)
| host_get_property (prop_id : Z).

Definition after {A} (r : option (A * GstCdioCddaSrc CdIo))
    : option (GstCdioCddaSrc CdIo) :=
  match r with Some (_, src') => Some src' | None => None end.

Definition perform (policy : RangePolicy) (c : HostCall)
    (src : GstCdioCddaSrc CdIo) : option (GstCdioCddaSrc CdIo) :=
  match c with
  | host_open device => after (gst_cdio_cdda_src_open device src)
  | host_close => after (gst_cdio_cdda_src_close src)
  | host_read_sector sector => after (gst_cdio_cdda_src_read_sector sector src)
  | host_probe_devices => after (gst_cdio_cdda_src_probe_devices src)
  | host_get_default_device => after (gst_cdio_cdda_src_get_default_device src)
  | host_set_property prop_id v => after (g_object_set_property policy prop_id v src)
  | host_get_property prop_id => after (g_object_get_property prop_id src)
  end.

(** The states an element can be in: as initialised, or one completed call
    later than a state it can be in. *)
Inductive Reachable (policy : RangePolicy) : GstCdioCddaSrc CdIo -> Prop :=
| reach_init : Reachable policy gst_cdio_cdda_src_init
| reach_step (src src' : GstCdioCddaSrc CdIo) (c : HostCall) :
    Reachable policy src -> perform policy c src = Some src' ->
    Reachable policy src'.

End Lifecycle.

(** ** A concrete drive bay

    Three devices: an audio disc with track 1 on sectors 0-999 (audio) and
    track 2 on sectors 1000-1999 (data), a data disc, and a disc in audio
    mode that reports no tracks. *)

Module Scenario.

Inductive Disc := audio_cd | data_cd | blank_cd.

Definition open_path (device : string) (_ : driver_id_t) : option Disc :=
  if String.eqb device "/dev/cdrom" then Some audio_cd
  else if String.eqb device "/dev/dvd" then Some data_cd
  else if String.eqb device "/dev/blank" then Some blank_cd
  else None.

Definition discmode (d : Disc) : discmode_t :=
  match d with
  | audio_cd => CDIO_DISC_MODE_CD_MIXED
  | data_cd => CDIO_DISC_MODE_CD_DATA
  | blank_cd => CDIO_DISC_MODE_CD_DA
  end.

Definition first_track_num (d : Disc) : Z :=
  match d with audio_cd | data_cd => 1 | blank_cd => 0 end.

Definition num_tracks (d : Disc) : Z :=
  match d with audio_cd => 2 | data_cd => 1 | blank_cd => 0 end.

Definition CDIO_INVALID_LSN : Z := -45301.

Definition track_lsn (d : Disc) (n : Z) : Z :=
  match d with
  | audio_cd => if n =? 1 then 0 else if n =? 2 then 1000 else
                if n =? 3 then 2000 else CDIO_INVALID_LSN
  | data_cd => if n =? 1 then 0 else CDIO_INVALID_LSN
  | blank_cd => CDIO_INVALID_LSN
  end.

Definition track_sec_count (d : Disc) (n : Z) : Z :=
  match d with
  | audio_cd => if (n =? 1) || (n =? 2) then 1000 else 0
  | data_cd => if n =? 1 then 5000 else 0
  | blank_cd => 0
  end.

Definition track_format (d : Disc) (n : Z) : track_format_t :=
  match d with
  | audio_cd => if n =? 1 then TRACK_FORMAT_AUDIO else
                if n =? 2 then TRACK_FORMAT_DATA else TRACK_FORMAT_ERROR
  | data_cd => if n =? 1 then TRACK_FORMAT_DATA else TRACK_FORMAT_ERROR
  | blank_cd => TRACK_FORMAT_ERROR
  end.

Definition cdtext (d : Disc) (n : Z) : option cdtext_t :=
  match d with
  | audio_cd =>
      if n =? 1 then
        Some (fun f => match f with
                       | CDTEXT_TITLE => Some "Intro"%string
                       | CDTEXT_PERFORMER => None
                       end)
      else None
  | _ => None
  end.

Definition EIO : Z := 5.

Definition frame : list byte := repeat "*"%byte (Z.to_nat CDIO_CD_FRAMESIZE_RAW).

(** Reading through a null handle returns [null_rc]. *)
Definition read_audio_sector (null_rc : Z) (p : option Disc) (sector : Z)
    : read_result :=
  match p with
  | Some audio_cd =>
      if (0 <=? sector) && (sector <=? 999)
      then {| read_rc := 0; read_stored := frame; read_errno := 0 |}
      else {| read_rc := -1; read_stored := []; read_errno := EIO |}
  | Some _ => {| read_rc := -1; read_stored := []; read_errno := EIO |}
  | None => {| read_rc := null_rc; read_stored := []; read_errno := 0 |}
  end.

Definition libcdio (version null_rc : Z) : Libcdio Disc :=
  {| LIBCDIO_VERSION_NUM := version;
     cdio_open := open_path;
     cdio_open_errno := fun _ => 2;
     cdio_get_discmode := discmode;
     cdio_get_first_track_num := first_track_num;
     cdio_get_num_tracks := num_tracks;
     cdio_get_track_sec_count := track_sec_count;
     cdio_get_track_lsn := track_lsn;
     cdio_get_track_format := track_format;
     cdio_get_cdtext := cdtext;
     cdio_set_speed := fun _ _ => -2;
     cdio_read_audio_sector := read_audio_sector null_rc;
     cdio_get_default_device := fun _ => Some "/dev/cdrom"%string;
     cdio_get_devices := fun _ => Some ["/dev/cdrom"; "/dev/dvd"]%string |}.

(** A library that finds no drive at all: an empty device array. *)
Definition libcdio_no_devices : Libcdio Disc :=
  {| LIBCDIO_VERSION_NUM := 76;
     cdio_open := fun _ _ => None;
     cdio_open_errno := fun _ => 2;
     cdio_get_discmode := discmode;
     cdio_get_first_track_num := first_track_num;
     cdio_get_num_tracks := num_tracks;
     cdio_get_track_sec_count := track_sec_count;
     cdio_get_track_lsn := track_lsn;
     cdio_get_track_format := track_format;
     cdio_get_cdtext := cdtext;
     cdio_set_speed := fun _ _ => -2;
     cdio_read_audio_sector := read_audio_sector (-1);
     cdio_get_default_device := fun _ => None;
     cdio_get_devices := fun _ => Some [] |}.

(** A pad that hands out zeroed buffers of the requested size. *)
Definition linked_pad : GstHost :=
  {| gst_pad_alloc_buffer := fun size => (GST_FLOW_OK, repeat "000"%byte (Z.to_nat size)) |}.

Definition GST_FLOW_WRONG_STATE : GstFlowReturn := -2.

(** A flushing pad: every allocation is refused. *)
Definition flushing_pad : GstHost :=
  {| gst_pad_alloc_buffer := fun _ => (GST_FLOW_WRONG_STATE, []) |}.

Definition fresh : GstCdioCddaSrc Disc := gst_cdio_cdda_src_init.

Definition fresh_with_speed (v : Z) : GstCdioCddaSrc Disc :=
  {| cdio := None; read_speed := v; tracks := []; bus := []; log := [];
     drive := []; unreffed := [] |}.

(** The element after opening the audio disc, and after closing it again. *)
Definition opened (version null_rc : Z) (speed : Z) : GstCdioCddaSrc Disc :=
  match gst_cdio_cdda_src_open (L := libcdio version null_rc)
          (Some "/dev/cdrom"%string) (fresh_with_speed speed) with
  | Some (_, src) => src
  | None => fresh_with_speed speed
  end.

Definition closed (version null_rc : Z) (speed : Z) : GstCdioCddaSrc Disc :=
  match gst_cdio_cdda_src_close (opened version null_rc speed) with
  | Some (_, src) => src
  | None => opened version null_rc speed
  end.

(** The opened audio disc after a read of sector 5000, which is past the
    last track and fails in the library. *)
Definition after_failed_read (version null_rc : Z) (speed : Z)
    : GstCdioCddaSrc Disc :=
  match gst_cdio_cdda_src_read_sector (L := libcdio version null_rc)
          (H := linked_pad) 5000 (opened version null_rc speed) with
  | Some (_, src) => src
  | None => opened version null_rc speed
  end.

End Scenario.

(** ** Sentences of the specification, as written

    Each is stated over every library, host and element state; the results
    below show where the element departs from it. *)

(** The host contract the frame size rests on: a successful allocation has
    the size that was asked for. *)
Definition allocates_requested_size (H : GstHost) : Prop :=
  forall size ret_ buf,
    0 <= size ->
    gst_pad_alloc_buffer size = (ret_, buf) -> ret_ = GST_FLOW_OK ->
    Z.of_nat (List.length buf) = size.

(** "read_sector either returns one raw frame or fails with a read failure
    carrying the sector and the cause." *)
Definition read_sector_frame_or_failure : Prop :=
  forall (CdIo : Type) (L : Libcdio CdIo) (H : GstHost)
         (src : GstCdioCddaSrc CdIo) (sector : Z),
    allocates_requested_size H ->
    cdio src <> None ->
    in_track_range src sector ->
    exists r src',
      gst_cdio_cdda_src_read_sector sector src = Some (r, src') /\
      ((exists buf, r = Some buf /\
                    Z.of_nat (List.length buf) = CDIO_CD_FRAMESIZE_RAW) \/
       (r = None /\
        exists cause, bus src' = bus src ++ [read_failure sector cause])).

(** "On every successful open with a read speed other than -1 the speed is
    applied to the new handle once, or the inability to do so is logged; with
    -1 no speed is applied." *)
Definition speed_applied_on_every_successful_open : Prop :=
  forall (CdIo : Type) (L : Libcdio CdIo) (src src' : GstCdioCddaSrc CdIo)
         (device : string),
    gst_cdio_cdda_src_open (Some device) src = Some (TRUE, src') ->
    (read_speed src <> -1 ->
       (exists p, cdio src' = Some p /\
                  drive src' = drive src ++ [call_set_speed p (read_speed src)]) \/
       warnings src' <> warnings src) /\
    (read_speed src = -1 -> drive src' = drive src).

(** "After close, read_sector never returns a buffer." *)
Definition read_after_close_never_succeeds : Prop :=
  forall (CdIo : Type) (L : Libcdio CdIo) (H : GstHost)
         (src src1 : GstCdioCddaSrc CdIo) (sector : Z),
    gst_cdio_cdda_src_close src = Some (tt, src1) ->
    forall buf src2,
      gst_cdio_cdda_src_read_sector sector src1 <> Some (Some buf, src2).

(** "For every enumerated track, end is start plus the track's sector count
    minus one, start being the track's logical sector number", read over
    the integers. *)
Definition track_end_is_exactly_start_plus_length_minus_one : Prop :=
  forall (CdIo : Type) (L : Libcdio CdIo) (src src' : GstCdioCddaSrc CdIo)
         (device : string) (p : CdIo) (r : gboolean),
    tracks src = [] ->
    cdio_open device DRIVER_UNKNOWN = Some p ->
    gst_cdio_cdda_src_open (Some device) src = Some (r, src') ->
    forall (i : nat) (t : GstCddaBaseSrcTrack),
      nth_error (tracks src') i = Some t ->
      let n := to_gint (Z.of_nat i + cdio_get_first_track_num p) in
      start t = cdio_get_track_lsn p n /\
      end_ t = start t + cdio_get_track_sec_count p n - 1.

(** The drive bay seen through a library that cannot tell how long a track
    is and reports a sector count of 0 for every track. *)
Definition libcdio_without_lengths : Libcdio Scenario.Disc :=
  {| LIBCDIO_VERSION_NUM := 76;
     cdio_open := Scenario.open_path;
     cdio_open_errno := fun _ => 2;
     cdio_get_discmode := Scenario.discmode;
     cdio_get_first_track_num := Scenario.first_track_num;
     cdio_get_num_tracks := Scenario.num_tracks;
     cdio_get_track_sec_count := fun _ _ => 0;
     cdio_get_track_lsn := Scenario.track_lsn;
     cdio_get_track_format := Scenario.track_format;
     cdio_get_cdtext := Scenario.cdtext;
     cdio_set_speed := fun _ _ => -2;
     cdio_read_audio_sector := Scenario.read_audio_sector (-1);
     cdio_get_default_device := fun _ => Some "/dev/cdrom"%string;
     cdio_get_devices := fun _ => Some ["/dev/cdrom"; "/dev/dvd"]%string |}.

(** ** Reading the traces *)

(** The two error messages [gst_cdio_cdda_src_open] can post. *)
Definition open_error (text : string) (dbg : ErrorDebug) : GstMessage :=
  {| error_code := GST_RESOURCE_ERROR_OPEN_READ; error_text := text;
     error_debug := dbg |}.

Definition is_read_error (m : GstMessage) : bool :=
  match error_code m with
  | GST_RESOURCE_ERROR_READ => true
  | GST_RESOURCE_ERROR_OPEN_READ => false
  end.

(** How many read failures are on the bus. *)
Definition read_failures_posted {CdIo} (src : GstCdioCddaSrc CdIo) : nat :=
  List.length (filter is_read_error (bus src)).

Definition is_destroy {CdIo} (c : DriveCall CdIo) : bool :=
  match c with call_destroy _ => true | call_set_speed _ _ => false end.

(** The loop counters, in order: position [k] holds [k]. *)
Definition counts_up (l : list Z) : Prop :=
  forall (k : nat) (i : Z), nth_error l k = Some i -> i = Z.of_nat k.

(** * Results *)

Ltac run :=
  cbv [bind ret g_assert get_cdio get_read_speed set_cdio set_read_speed
       GST_LOG GST_ELEMENT_ERROR drive_call gst_buffer_unref
       gst_cdda_base_src_add_track];
  cbn [cdio read_speed tracks bus log drive unreffed fst snd is_null negb].

Section Loop.

Context {CdIo : Type} {L : Libcdio CdIo}.

Lemma same_but_log_refl (a : GstCdioCddaSrc CdIo) : same_but_log a a.
Proof. repeat split. Qed.

Lemma warnings_app_quiet (src : GstCdioCddaSrc CdIo) (l : LogLine) :
  is_warning l = false -> filter is_warning (log src ++ [l]) = warnings src.
Proof.
  intros Hq. rewrite filter_app. cbn. rewrite Hq. apply app_nil_r.
Qed.

Lemma get_cdtext_returns (p : CdIo) (n : Z) (src : GstCdioCddaSrc CdIo) :
  exists src',
    gst_cdio_cdda_src_get_cdtext p n src = Some (cdtext_tags p n, src') /\
    same_but_log src' src.
Proof.
  unfold gst_cdio_cdda_src_get_cdtext, cdtext_tags.
  destruct (76 <=? LIBCDIO_VERSION_NUM).
  - destruct (cdio_get_cdtext p n) as [t|].
    + eexists; split; [reflexivity | apply same_but_log_refl].
    + run. eexists; split; [reflexivity|].
      unfold same_but_log, warnings; cbn.
      rewrite warnings_app_quiet by reflexivity. repeat split.
  - run. eexists; split; [reflexivity|].
    unfold same_but_log, warnings; cbn.
    rewrite warnings_app_quiet by reflexivity. repeat split.
Qed.

Lemma open_track_returns (p : CdIo) (first_track i : Z) (src : GstCdioCddaSrc CdIo) :
  exists src',
    open_track p first_track i src = Some (tt, src') /\
    cdio src' = cdio src /\ read_speed src' = read_speed src /\
    tracks src' = tracks src ++ [track_descriptor p first_track i] /\
    bus src' = bus src /\ drive src' = drive src /\
    unreffed src' = unreffed src /\ warnings src' = warnings src.
Proof.
  unfold open_track.
  destruct (get_cdtext_returns p (to_gint (i + first_track)) src)
    as (s1 & E & Hc & Hs & Ht & Hb & Hd & Hu & Hw).
  unfold bind at 1. rewrite E. run.
  eexists; split; [reflexivity|]. cbn.
  unfold warnings in *; cbn. rewrite Ht.
  repeat split; assumption.
Qed.

Lemma track_loop_returns (p : CdIo) (first_track : Z) (l : list Z) :
  forall src : GstCdioCddaSrc CdIo,
  exists src',
    for_each (open_track p first_track) l src = Some (tt, src') /\
    cdio src' = cdio src /\ read_speed src' = read_speed src /\
    tracks src' = tracks src ++ map (track_descriptor p first_track) l /\
    bus src' = bus src /\ drive src' = drive src /\
    unreffed src' = unreffed src /\ warnings src' = warnings src.
Proof.
  induction l as [|i l IH]; intros src; cbn [for_each map].
  - exists src. rewrite app_nil_r. repeat split.
  - destruct (open_track_returns p first_track i src)
      as (s1 & E & Hc & Hs & Ht & Hb & Hd & Hu & Hw).
    destruct (IH s1) as (s2 & E2 & Hc2 & Hs2 & Ht2 & Hb2 & Hd2 & Hu2 & Hw2).
    exists s2. unfold bind. rewrite E, E2.
    rewrite Ht2, Ht, <- app_assoc. cbn [app].
    repeat split; congruence.
Qed.

End Loop.

Section Open.

Context {CdIo : Type} {L : Libcdio CdIo}.

Lemma mode_check_passes (d : discmode_t) :
  audio_discmode d = true ->
  negb (discmode_t_beq d CDIO_DISC_MODE_CD_DA)
  && negb (discmode_t_beq d CDIO_DISC_MODE_CD_MIXED) = false.
Proof. unfold audio_discmode. now destruct d. Qed.

Lemma mode_check_fails (d : discmode_t) :
  audio_discmode d = false ->
  negb (discmode_t_beq d CDIO_DISC_MODE_CD_DA)
  && negb (discmode_t_beq d CDIO_DISC_MODE_CD_MIXED) = true.
Proof. unfold audio_discmode. now destruct d. Qed.

(** An open that gets past the empty-disc check: what it returns and
    everything it leaves behind. *)
Lemma open_with_tracks (src : GstCdioCddaSrc CdIo) (device : string) (p : CdIo) :
  cdio src = None ->
  cdio_open device DRIVER_UNKNOWN = Some p ->
  audio_discmode (cdio_get_discmode p) = true ->
  0 < cdio_get_num_tracks p ->
  0 <= cdio_get_first_track_num p ->
  exists src',
    gst_cdio_cdda_src_open (Some device) src = Some (TRUE, src') /\
    cdio src' = Some p /\ read_speed src' = read_speed src /\
    tracks src' =
      tracks src ++ map (track_descriptor p (cdio_get_first_track_num p))
                        (upto (cdio_get_num_tracks p)) /\
    bus src' = bus src /\
    drive src' = drive src ++ speed_calls p (read_speed src) /\
    warnings src' = warnings src ++ speed_warnings (read_speed src) /\
    unreffed src' = unreffed src.
Proof.
  intros Hnull Hopen Hmode Hnum Hfirst.
  unfold gst_cdio_cdda_src_open. run. rewrite Hnull. run.
  rewrite Hopen. rewrite (mode_check_passes _ Hmode).
  replace (cdio_get_num_tracks p <=? 0) with false by (symmetry; apply Z.leb_gt; lia).
  replace (cdio_get_first_track_num p <? 0) with false by (symmetry; apply Z.ltb_ge; lia).
  cbn [orb].
  unfold speed_calls, speed_warnings.
  destruct (negb (read_speed src =? -1)) eqn:Es;
    destruct (76 <=? LIBCDIO_VERSION_NUM) eqn:Ev;
    run; rewrite ?Es; run; cbn [andb negb];
    match goal with
    | |- context [for_each ?b ?l ?s] =>
        destruct (track_loop_returns p (cdio_get_first_track_num p) l s)
          as (s3 & E3 & Hc3 & Hs3 & Ht3 & Hb3 & Hd3 & Hu3 & Hw3)
    end;
    rewrite E3; exists s3; cbn in *;
    unfold warnings in *; cbn in *;
    repeat rewrite filter_app in *; cbn in *;
    repeat rewrite app_nil_r in *;
    repeat split; try assumption; try congruence.
Qed.

(** An open that stops at the empty-disc check. *)
Lemma open_without_tracks (src : GstCdioCddaSrc CdIo) (device : string) (p : CdIo) :
  cdio src = None ->
  cdio_open device DRIVER_UNKNOWN = Some p ->
  audio_discmode (cdio_get_discmode p) = true ->
  cdio_get_num_tracks p <= 0 \/ cdio_get_first_track_num p < 0 ->
  exists src',
    gst_cdio_cdda_src_open (Some device) src = Some (TRUE, src') /\
    cdio src' = Some p /\ read_speed src' = read_speed src /\
    tracks src' = tracks src /\ bus src' = bus src /\
    drive src' = drive src /\ warnings src' = warnings src /\
    unreffed src' = unreffed src.
Proof.
  intros Hnull Hopen Hmode Hempty.
  unfold gst_cdio_cdda_src_open. run. rewrite Hnull. run.
  rewrite Hopen. rewrite (mode_check_passes _ Hmode).
  replace ((cdio_get_num_tracks p <=? 0) || (cdio_get_first_track_num p <? 0))
    with true.
  2:{ symmetry. apply orb_true_iff.
      destruct Hempty; [left; apply Z.leb_le | right; apply Z.ltb_lt]; lia. }
  eexists; split; [reflexivity|]. cbn.
  unfold warnings; cbn. repeat rewrite filter_app; cbn.
  repeat rewrite app_nil_r. repeat split.
Qed.

(** An open that is refused: on either failure path the result is FALSE
    and no track, drive call or buffer release happens; the handle field is
    what [cdio_open] returned. *)
Lemma open_refused (src : GstCdioCddaSrc CdIo) (device : string) :
  cdio src = None ->
  match cdio_open device DRIVER_UNKNOWN with
  | None => True
  | Some p => audio_discmode (cdio_get_discmode p) = false
  end ->
  exists src',
    gst_cdio_cdda_src_open (Some device) src = Some (FALSE, src') /\
    cdio src' = cdio_open device DRIVER_UNKNOWN /\
    tracks src' = tracks src /\ drive src' = drive src /\
    exists m, bus src' = bus src ++ [m] /\
              error_code m = GST_RESOURCE_ERROR_OPEN_READ.
Proof.
  intros Hnull Hbad.
  unfold gst_cdio_cdda_src_open. run. rewrite Hnull. run.
  destruct (cdio_open device DRIVER_UNKNOWN) as [p|].
  - rewrite (mode_check_fails _ Hbad).
    eexists; split; [reflexivity|]. cbn. repeat split.
    eexists; split; reflexivity.
  - eexists; split; [reflexivity|]. cbn. repeat split.
    eexists; split; reflexivity.
Qed.

End Open.

Section Layout.

Context {CdIo : Type} {L : Libcdio CdIo}.

Lemma to_gint_small (z : Z) : G_MININT <= z <= G_MAXINT -> to_gint z = z.
Proof.
  unfold G_MININT, G_MAXINT, to_gint. intros Hz.
  rewrite Z.mod_small; lia.
Qed.

Lemma to_guint_small (z : Z) : 0 <= z <= G_MAXUINT -> to_guint z = z.
Proof.
  unfold G_MAXUINT, to_guint. intros Hz. apply Z.mod_small. lia.
Qed.

Lemma in_upto (n i : Z) : In i (upto n) <-> 0 <= i < n.
Proof.
  unfold upto. rewrite in_map_iff. split.
  - intros (k & <- & Hk). apply in_seq in Hk. lia.
  - intros Hi. exists (Z.to_nat i). split; [lia|]. apply in_seq. lia.
Qed.

Lemma nth_error_upto (n : Z) (k : nat) (i : Z) :
  nth_error (upto n) k = Some i -> i = Z.of_nat k /\ 0 <= i < n.
Proof.
  intros Hk. split.
  - unfold upto in Hk. rewrite nth_error_map in Hk.
    destruct (nth_error (seq 0 (Z.to_nat n)) k) as [m|] eqn:E; [|discriminate].
    injection Hk as <-. f_equal.
    assert (Hlt : (k < List.length (seq 0 (Z.to_nat n)))%nat)
      by (apply nth_error_Some; congruence).
    rewrite length_seq in Hlt.
    rewrite nth_error_nth' with (d := 0%nat) in E by (rewrite length_seq; exact Hlt).
    rewrite seq_nth in E by exact Hlt. injection E as <-. reflexivity.
  - apply in_upto. eapply nth_error_In; eassumption.
Qed.

(** What validity gives, track by track ([i] counts from the first track). *)
Lemma valid_audio_disc_tracks (p : CdIo) :
  valid_audio_disc p = true ->
  let first_track := cdio_get_first_track_num p in
  let num_tracks := cdio_get_num_tracks p in
  audio_discmode (cdio_get_discmode p) = true /\
  0 < num_tracks /\ 0 <= first_track /\
  first_track + num_tracks - 1 <= G_MAXINT /\
  (forall i, 0 <= i < num_tracks ->
     0 <= cdio_get_track_lsn p (first_track + i) /\
     1 <= cdio_get_track_sec_count p (first_track + i) /\
     cdio_get_track_lsn p (first_track + i)
       + cdio_get_track_sec_count p (first_track + i) - 1 <= G_MAXUINT) /\
  (forall i, 0 <= i < num_tracks - 1 ->
     cdio_get_track_lsn p (first_track + i)
       + cdio_get_track_sec_count p (first_track + i)
     <= cdio_get_track_lsn p (first_track + (i + 1))).
Proof.
  unfold valid_audio_disc. intros Hv. cbv zeta.
  repeat (apply andb_true_iff in Hv; destruct Hv as [Hv ?]).
  repeat split; try lia; try assumption.
  - match goal with
    | Hall : forallb _ (upto (cdio_get_num_tracks p)) = true |- _ =>
        rewrite forallb_forall in Hall; specialize (Hall i)
    end.
    rewrite in_upto in *. intuition lia.
  - match goal with
    | Hall : forallb _ (upto (cdio_get_num_tracks p)) = true |- _ =>
        rewrite forallb_forall in Hall; specialize (Hall i)
    end.
    rewrite in_upto in *. intuition lia.
  - match goal with
    | Hall : forallb _ (upto (cdio_get_num_tracks p)) = true |- _ =>
        rewrite forallb_forall in Hall; specialize (Hall i)
    end.
    rewrite in_upto in *. intuition lia.
  - intros i Hi.
    match goal with
    | Hall : forallb _ (upto (cdio_get_num_tracks p - 1)) = true |- _ =>
        rewrite forallb_forall in Hall; specialize (Hall i)
    end.
    rewrite in_upto in *. intuition lia.
Qed.

End Layout.

Section Tracks.

Context {CdIo : Type} {L : Libcdio CdIo}.

(** Later tracks of a valid disc start after earlier ones are over. *)
Lemma valid_tracks_apart (p : CdIo) :
  valid_audio_disc p = true ->
  forall (k : nat) (i : Z),
    0 <= i -> i + 1 + Z.of_nat k < cdio_get_num_tracks p ->
    cdio_get_track_lsn p (cdio_get_first_track_num p + i)
      + cdio_get_track_sec_count p (cdio_get_first_track_num p + i)
    <= cdio_get_track_lsn p (cdio_get_first_track_num p + (i + 1 + Z.of_nat k)).
Proof.
  intros Hv.
  destruct (valid_audio_disc_tracks p Hv) as (_ & _ & _ & _ & Hin & Hadj).
  induction k as [|k IH]; intros i Hi Hlt.
  - rewrite Z.add_0_r. apply Hadj. lia.
  - assert (Hprev := IH i Hi ltac:(lia)).
    assert (Hstep := Hadj (i + 1 + Z.of_nat k) ltac:(lia)).
    assert (Hlen := Hin (i + 1 + Z.of_nat k) ltac:(lia)).
    replace (i + 1 + Z.of_nat (S k)) with (i + 1 + Z.of_nat k + 1) by lia.
    lia.
Qed.

(** On a valid disc no conversion in the loop body wraps. *)
Lemma track_descriptor_valid (p : CdIo) (i : Z) :
  valid_audio_disc p = true ->
  0 <= i < cdio_get_num_tracks p ->
  let n := cdio_get_first_track_num p + i in
  let t := track_descriptor p (cdio_get_first_track_num p) i in
  num t = n /\ start t = cdio_get_track_lsn p n /\
  end_ t = cdio_get_track_lsn p n + cdio_get_track_sec_count p n - 1.
Proof.
  intros Hv Hi.
  destruct (valid_audio_disc_tracks p Hv) as (_ & Hn & Hf & Hmax & Hin & _).
  destruct (Hin i Hi) as (Hlsn & Hlen & Hend).
  unfold G_MAXINT, G_MAXUINT in *. cbv zeta.
  unfold track_descriptor; cbn [num start end_].
  replace (i + cdio_get_first_track_num p)
    with (cdio_get_first_track_num p + i) by lia.
  rewrite (to_gint_small (cdio_get_first_track_num p + i))
    by (unfold G_MININT, G_MAXINT; lia).
  rewrite (to_guint_small (cdio_get_first_track_num p + i))
    by (unfold G_MAXUINT; lia).
  rewrite (to_guint_small (cdio_get_track_lsn p _)) by (unfold G_MAXUINT; lia).
  rewrite to_guint_small by (unfold G_MAXUINT; lia).
  repeat split.
Qed.

(** C1: a successful open of a valid audio disc (so with at least one track
    and a non-negative first track number) hands over descriptors whose
    numbers are first_track, first_track + 1, ..., first_track + num_tracks
    - 1 in this order; every descriptor has start <= end; and of two
    descriptors the earlier one has the smaller number and ends before the
    later one starts. *)
Theorem open_tracks_ascending_and_apart
    (src : GstCdioCddaSrc CdIo) (device : string) (p : CdIo) :
  cdio src = None ->
  cdio_open device DRIVER_UNKNOWN = Some p ->
  valid_audio_disc p = true ->
  exists src' ts,
    gst_cdio_cdda_src_open (Some device) src = Some (TRUE, src') /\
    tracks src' = tracks src ++ ts /\
    map num ts = map (fun i => cdio_get_first_track_num p + i)
                     (upto (cdio_get_num_tracks p)) /\
    Forall (fun t => start t <= end_ t) ts /\
    forall (i j : nat) (ti tj : GstCddaBaseSrcTrack),
      nth_error ts i = Some ti -> nth_error ts j = Some tj -> (i < j)%nat ->
      num ti < num tj /\ end_ ti < start tj.
Proof.
  intros Hnull Hopen Hv.
  destruct (valid_audio_disc_tracks p Hv) as (Hmode & Hn & Hf & Hmax & Hin & Hadj).
  destruct (open_with_tracks src device p Hnull Hopen Hmode Hn Hf)
    as (src' & E & _ & _ & Ht & _).
  exists src', (map (track_descriptor p (cdio_get_first_track_num p))
                    (upto (cdio_get_num_tracks p))).
  split; [exact E|]. split; [exact Ht|]. split; [|split].
  - rewrite map_map. apply map_ext_in. intros i Hi. apply in_upto in Hi.
    apply (track_descriptor_valid p i Hv Hi).
  - apply Forall_forall. intros t Ht'. apply in_map_iff in Ht'.
    destruct Ht' as (i & <- & Hi). apply in_upto in Hi.
    destruct (track_descriptor_valid p i Hv Hi) as (_ & -> & ->).
    destruct (Hin i Hi) as (_ & Hlen & _). lia.
  - intros i j ti tj Hi Hj Hij.
    rewrite nth_error_map in Hi, Hj.
    destruct (nth_error (upto (cdio_get_num_tracks p)) i) as [zi|] eqn:Ei;
      [|discriminate].
    destruct (nth_error (upto (cdio_get_num_tracks p)) j) as [zj|] eqn:Ej;
      [|discriminate].
    injection Hi as <-. injection Hj as <-.
    apply nth_error_upto in Ei, Ej.
    destruct Ei as (-> & Hri), Ej as (-> & Hrj).
    destruct (track_descriptor_valid p _ Hv Hri) as (-> & _ & ->).
    destruct (track_descriptor_valid p _ Hv Hrj) as (-> & -> & _).
    split; [lia|].
    assert (Hapart := valid_tracks_apart p Hv (j - i - 1) (Z.of_nat i)
                        ltac:(lia) ltac:(lia)).
    replace (Z.of_nat i + 1 + Z.of_nat (j - i - 1)) with (Z.of_nat j) in Hapart
      by lia.
    lia.
Qed.

(** C4, as the element has it: once the mode check and the empty-disc
    check are passed, open hands over one descriptor for each of the
    num_tracks tracks, in order, and in the descriptor of every track start
    is the track's LSN and end is start + sector count - 1, both computed
    as [guint] (modulo 2^32); whenever the LSN and the inclusive end lie
    within a [guint], start is exactly the LSN and end is exactly
    start + length - 1. *)
Theorem track_end_is_start_plus_length_minus_one
    (src : GstCdioCddaSrc CdIo) (device : string) (p : CdIo) :
  cdio src = None ->
  cdio_open device DRIVER_UNKNOWN = Some p ->
  audio_discmode (cdio_get_discmode p) = true ->
  0 < cdio_get_num_tracks p ->
  0 <= cdio_get_first_track_num p ->
  exists src' ts,
    gst_cdio_cdda_src_open (Some device) src = Some (TRUE, src') /\
    tracks src' = tracks src ++ ts /\
    Z.of_nat (List.length ts) = cdio_get_num_tracks p /\
    forall i : nat,
      Z.of_nat i < cdio_get_num_tracks p ->
      exists t,
        nth_error ts i = Some t /\
        let n := to_gint (Z.of_nat i + cdio_get_first_track_num p) in
        let lsn := cdio_get_track_lsn p n in
        let len := cdio_get_track_sec_count p n in
        start t = to_guint lsn /\
        end_ t = to_guint (start t + len - 1) /\
        (0 <= lsn <= G_MAXUINT -> 0 <= lsn + len - 1 <= G_MAXUINT ->
         start t = lsn /\ end_ t = start t + len - 1).
Proof.
  intros Hnull Hopen Hmode Hn Hf.
  destruct (open_with_tracks src device p Hnull Hopen Hmode Hn Hf)
    as (src' & E & _ & _ & Ht & _).
  exists src', (map (track_descriptor p (cdio_get_first_track_num p))
                    (upto (cdio_get_num_tracks p))).
  split; [exact E|]. split; [exact Ht|]. split.
  - unfold upto. rewrite !length_map, length_seq. lia.
  - intros i Hi.
    exists (track_descriptor p (cdio_get_first_track_num p) (Z.of_nat i)).
    split.
    + rewrite nth_error_map. unfold upto. rewrite nth_error_map.
      rewrite nth_error_nth' with (d := 0%nat) by (rewrite length_seq; lia).
      rewrite seq_nth by lia. reflexivity.
    + cbv zeta. unfold track_descriptor; cbn [start end_].
      split; [reflexivity|]. split; [reflexivity|].
      intros Hlsn Hend.
      assert (Hs := to_guint_small _ Hlsn).
      rewrite Hs. split; [reflexivity|]. apply to_guint_small. exact Hend.
Qed.

End Tracks.

Section OpenOutcomes.

Context {CdIo : Type} {L : Libcdio CdIo}.

(** C5: when the mode check passes and the disc reports no tracks or a
    negative first track number, open returns TRUE, hands over no track and
    posts no error; the handle stays open. *)
Theorem open_empty_disc_succeeds
    (src : GstCdioCddaSrc CdIo) (device : string) (p : CdIo) :
  cdio src = None ->
  cdio_open device DRIVER_UNKNOWN = Some p ->
  audio_discmode (cdio_get_discmode p) = true ->
  cdio_get_num_tracks p <= 0 \/ cdio_get_first_track_num p < 0 ->
  exists src',
    gst_cdio_cdda_src_open (Some device) src = Some (TRUE, src') /\
    tracks src' = tracks src /\ (tracks src = [] -> tracks src' = []) /\
    bus src' = bus src /\ cdio src' = Some p.
Proof.
  intros Hnull Hopen Hmode Hempty.
  destruct (open_without_tracks src device p Hnull Hopen Hmode Hempty)
    as (src' & E & Hc & _ & Ht & Hb & _).
  exists src'. repeat split; try assumption. congruence.
Qed.

(** C6, as the element has it: an open that passes the mode check returns
    TRUE whatever the drive answers.  If it finds tracks and the configured
    speed is not -1, then with libcdio 76 or later it calls cdio_set_speed
    once, on the new handle, with that speed, and logs nothing about the
    outcome; with an older libcdio it makes no call and logs one warning.
    With speed -1, or on a disc without tracks, it makes no call and logs no
    warning. *)
Theorem open_applies_read_speed
    (src : GstCdioCddaSrc CdIo) (device : string) (p : CdIo) :
  cdio src = None ->
  cdio_open device DRIVER_UNKNOWN = Some p ->
  audio_discmode (cdio_get_discmode p) = true ->
  exists src',
    gst_cdio_cdda_src_open (Some device) src = Some (TRUE, src') /\
    cdio src' = Some p /\
    (cdio_get_num_tracks p <= 0 \/ cdio_get_first_track_num p < 0 ->
       drive src' = drive src /\ warnings src' = warnings src) /\
    (0 < cdio_get_num_tracks p -> 0 <= cdio_get_first_track_num p ->
       (read_speed src = -1 ->
          drive src' = drive src /\ warnings src' = warnings src) /\
       (read_speed src <> -1 -> 76 <= LIBCDIO_VERSION_NUM ->
          drive src' = drive src ++ [call_set_speed p (read_speed src)] /\
          warnings src' = warnings src) /\
       (read_speed src <> -1 -> LIBCDIO_VERSION_NUM < 76 ->
          drive src' = drive src /\
          warnings src' =
            warnings src ++ [log_speed_unsupported LIBCDIO_VERSION_NUM])).
Proof.
  intros Hnull Hopen Hmode.
  destruct (Z_lt_le_dec 0 (cdio_get_num_tracks p)) as [Hn|Hn];
    [destruct (Z_le_gt_dec 0 (cdio_get_first_track_num p)) as [Hf|Hf]|].
  - destruct (open_with_tracks src device p Hnull Hopen Hmode Hn Hf)
      as (src' & E & Hc & _ & _ & _ & Hd & Hw & _).
    exists src'. split; [exact E|]. split; [exact Hc|].
    split; [intros [?|?]; lia|]. intros _ _.
    unfold speed_calls in Hd. unfold speed_warnings in Hw.
    repeat split.
    + rewrite Hd. replace (read_speed src =? -1) with true
        by (symmetry; apply Z.eqb_eq; assumption).
      apply app_nil_r.
    + rewrite Hw. replace (read_speed src =? -1) with true
        by (symmetry; apply Z.eqb_eq; assumption).
      apply app_nil_r.
    + rewrite Hd. replace (read_speed src =? -1) with false
        by (symmetry; apply Z.eqb_neq; assumption).
      replace (76 <=? LIBCDIO_VERSION_NUM) with true
        by (symmetry; apply Z.leb_le; assumption).
      reflexivity.
    + rewrite Hw. replace (76 <=? LIBCDIO_VERSION_NUM) with true
        by (symmetry; apply Z.leb_le; assumption).
      rewrite andb_false_r. apply app_nil_r.
    + rewrite Hd. replace (76 <=? LIBCDIO_VERSION_NUM) with false
        by (symmetry; apply Z.leb_gt; assumption).
      rewrite andb_false_r. apply app_nil_r.
    + rewrite Hw. replace (read_speed src =? -1) with false
        by (symmetry; apply Z.eqb_neq; assumption).
      replace (76 <=? LIBCDIO_VERSION_NUM) with false
        by (symmetry; apply Z.leb_gt; assumption).
      reflexivity.
  - destruct (open_without_tracks src device p Hnull Hopen Hmode
                ltac:(right; lia)) as (src' & E & Hc & _ & _ & _ & Hd & Hw & _).
    exists src'. split; [exact E|]. split; [exact Hc|].
    split; [intros _; split; assumption | intros; lia].
  - destruct (open_without_tracks src device p Hnull Hopen Hmode
                ltac:(left; lia)) as (src' & E & Hc & _ & _ & _ & Hd & Hw & _).
    exists src'. split; [exact E|]. split; [exact Hc|].
    split; [intros _; split; assumption | intros; lia].
Qed.

(** Whatever open does to a state, it leaves the read speed alone. *)
Lemma open_keeps_read_speed (device : option string)
    (src src' : GstCdioCddaSrc CdIo) (r : gboolean) :
  gst_cdio_cdda_src_open device src = Some (r, src') ->
  read_speed src' = read_speed src.
Proof.
  intros E.
  destruct device as [device|]; [|discriminate E].
  destruct (cdio src) as [q|] eqn:Hnull.
  { unfold gst_cdio_cdda_src_open in E. revert E. run. rewrite Hnull. run.
    discriminate. }
  destruct (cdio_open device DRIVER_UNKNOWN) as [p|] eqn:Hopen.
  - destruct (audio_discmode (cdio_get_discmode p)) eqn:Hmode.
    + destruct (Z_lt_le_dec 0 (cdio_get_num_tracks p)) as [Hn|Hn];
        [destruct (Z_le_gt_dec 0 (cdio_get_first_track_num p)) as [Hf|Hf]|].
      * destruct (open_with_tracks src device p Hnull Hopen Hmode Hn Hf)
          as (s & E' & _ & Hs & _). congruence.
      * destruct (open_without_tracks src device p Hnull Hopen Hmode
                    ltac:(right; lia)) as (s & E' & _ & Hs & _). congruence.
      * destruct (open_without_tracks src device p Hnull Hopen Hmode
                    ltac:(left; lia)) as (s & E' & _ & Hs & _). congruence.
    + revert E. unfold gst_cdio_cdda_src_open. run. rewrite Hnull. run.
      rewrite Hopen, (mode_check_fails _ Hmode).
      intros E; injection E as _ <-. reflexivity.
  - revert E. unfold gst_cdio_cdda_src_open. run. rewrite Hnull. run.
    rewrite Hopen. intros E; injection E as _ <-. reflexivity.
Qed.

(** A loop that only logs returns and touches nothing but the log. *)
Lemma log_loop_returns {T} (f : T -> LogLine) (l : list T) :
  forall src : GstCdioCddaSrc CdIo,
  exists src',
    for_each (fun x => GST_LOG (f x)) l src = Some (tt, src') /\
    cdio src' = cdio src /\ read_speed src' = read_speed src /\
    tracks src' = tracks src /\ bus src' = bus src.
Proof.
  induction l as [|x l IH]; intros src; cbn [for_each].
  - exists src. repeat split.
  - unfold bind at 1. unfold GST_LOG at 1.
    match goal with
    | |- context [for_each _ l ?s] => destruct (IH s) as (s' & E & ? & ? & ? & ?)
    end.
    exists s'. rewrite E. repeat split; assumption.
Qed.

(** C10: probe_devices returns either no array at all, exactly when the
    library returns none or an empty one, or the library's non-empty list of
    device paths; it never returns an empty array. *)
Theorem probe_devices_never_empty (src : GstCdioCddaSrc CdIo) :
  exists r src',
    gst_cdio_cdda_src_probe_devices src = Some (r, src') /\
    r <> Some [] /\
    (r = None <->
       cdio_get_devices DRIVER_DEVICE = None \/
       cdio_get_devices DRIVER_DEVICE = Some []) /\
    (forall ds, r = Some ds -> cdio_get_devices DRIVER_DEVICE = Some ds).
Proof.
  unfold gst_cdio_cdda_src_probe_devices.
  destruct (cdio_get_devices DRIVER_DEVICE) as [[|d ds]|].
  - run. eexists _, _. split; [reflexivity|].
    split; [discriminate|]. split; [tauto|]. discriminate.
  - destruct (log_loop_returns log_device (d :: ds) src) as (s' & E & _).
    unfold bind at 1. rewrite E. run.
    exists (Some (d :: ds)), s'. split; [reflexivity|].
    split; [discriminate|]. split.
    + split; [discriminate | intros [?|?]; discriminate].
    + intros ds' Hds. injection Hds as <-. reflexivity.
  - run. eexists _, _. split; [reflexivity|].
    split; [discriminate|]. split; [tauto|]. discriminate.
Qed.

End OpenOutcomes.

Section Reads.

Context {CdIo : Type} {L : Libcdio CdIo} {H : GstHost}.

Lemma length_store_at_start (buf stored : list byte) :
  List.length (store_at_start buf stored) = List.length buf.
Proof.
  unfold store_at_start. rewrite length_app, length_firstn, length_skipn. lia.
Qed.

(** Every way a sector read can end. *)
Lemma read_sector_cases (src : GstCdioCddaSrc CdIo) (sector : Z) :
  let flowret := fst (gst_pad_alloc_buffer CDIO_CD_FRAMESIZE_RAW) in
  let got := cdio_read_audio_sector (cdio src) sector in
  let buf := store_at_start (snd (gst_pad_alloc_buffer CDIO_CD_FRAMESIZE_RAW))
                            (read_stored got) in
  exists r src',
    gst_cdio_cdda_src_read_sector sector src = Some (r, src') /\
    cdio src' = cdio src /\ read_speed src' = read_speed src /\
    tracks src' = tracks src /\ drive src' = drive src /\
    ((flowret = GST_FLOW_OK /\ read_rc got = 0 /\ r = Some buf /\
      bus src' = bus src /\ unreffed src' = unreffed src) \/
     (flowret = GST_FLOW_OK /\ read_rc got <> 0 /\ r = None /\
      bus src' = bus src ++ [read_failure sector (read_errno got)] /\
      unreffed src' = unreffed src ++ [buf]) \/
     (flowret <> GST_FLOW_OK /\ r = None /\
      bus src' = bus src /\ unreffed src' = unreffed src)).
Proof.
  cbv zeta. unfold gst_cdio_cdda_src_read_sector.
  destruct (gst_pad_alloc_buffer CDIO_CD_FRAMESIZE_RAW) as [flowret buf0].
  cbn [fst snd].
  destruct (flowret =? GST_FLOW_OK) eqn:Ef; cbn [negb].
  - apply Z.eqb_eq in Ef. run.
    destruct (read_rc (cdio_read_audio_sector (cdio src) sector) =? 0) eqn:Er;
      cbn [negb].
    + apply Z.eqb_eq in Er. eexists _, _. split; [reflexivity|].
      repeat split. left. repeat split; assumption.
    + apply Z.eqb_neq in Er. eexists _, _. split; [reflexivity|].
      cbn. repeat split. right; left. repeat split; assumption.
  - apply Z.eqb_neq in Ef. run. eexists _, _. split; [reflexivity|].
    cbn. repeat split. right; right. repeat split; assumption.
Qed.

(** C3, as the element has it: read_sector always returns, in one of three
    ways.  It returns a buffer of exactly CDIO_CD_FRAMESIZE_RAW bytes, only
    when the library reported success for the sector; or the library
    reported an error, and then a read failure carrying the sector and errno
    is posted, the buffer is released and nothing is returned; or the host
    refused the allocation, and then nothing is returned and no error is
    posted. *)
Theorem read_sector_frame_failure_or_no_buffer
    (src : GstCdioCddaSrc CdIo) (sector : Z) :
  allocates_requested_size H ->
  let flowret := fst (gst_pad_alloc_buffer CDIO_CD_FRAMESIZE_RAW) in
  let got := cdio_read_audio_sector (cdio src) sector in
  exists r src',
    gst_cdio_cdda_src_read_sector sector src = Some (r, src') /\
    ((flowret = GST_FLOW_OK /\ read_rc got = 0 /\
      (exists buf, r = Some buf /\
                   Z.of_nat (List.length buf) = CDIO_CD_FRAMESIZE_RAW) /\
      bus src' = bus src /\ unreffed src' = unreffed src) \/
     (flowret = GST_FLOW_OK /\ read_rc got <> 0 /\ r = None /\
      bus src' = bus src ++ [read_failure sector (read_errno got)] /\
      exists buf, unreffed src' = unreffed src ++ [buf]) \/
     (flowret <> GST_FLOW_OK /\ r = None /\
      bus src' = bus src /\ unreffed src' = unreffed src)).
Proof.
  intros Hsize. cbv zeta.
  destruct (read_sector_cases src sector)
    as (r & src' & E & _ & _ & _ & _ & Hcases).
  exists r, src'. split; [exact E|].
  destruct Hcases as [(Hf & Hr & -> & Hb & Hu)
                     |[(Hf & Hr & -> & Hb & Hu)|(Hf & -> & Hb & Hu)]].
  - left. repeat split; try assumption.
    eexists; split; [reflexivity|]. rewrite length_store_at_start.
    apply (Hsize _ (fst (gst_pad_alloc_buffer CDIO_CD_FRAMESIZE_RAW))).
    + unfold CDIO_CD_FRAMESIZE_RAW. lia.
    + now destruct (gst_pad_alloc_buffer CDIO_CD_FRAMESIZE_RAW).
    + exact Hf.
  - right; left. repeat split; try assumption. eexists; exact Hu.
  - right; right. repeat split; assumption.
Qed.

Lemma close_returns (src src1 : GstCdioCddaSrc CdIo) :
  gst_cdio_cdda_src_close src = Some (tt, src1) ->
  cdio src <> None /\ cdio src1 = None /\ read_speed src1 = read_speed src /\
  tracks src1 = tracks src /\ bus src1 = bus src.
Proof.
  unfold gst_cdio_cdda_src_close. run.
  destruct (cdio src) as [h|] eqn:Hh; run; [|discriminate].
  rewrite Hh. intros E; injection E as <-. cbn. repeat split. discriminate.
Qed.

(** C7, as the element has it: close leaves a null handle, and a read_sector
    after it is not checked by the element but passed on with that null
    handle.  The call returns; it returns no buffer whenever the library
    reports an error for a null handle (and then posts the read failure), and
    it returns a buffer only if the host allocated one and the library
    reported success for the null handle. *)
Theorem read_after_close_is_left_to_the_library
    (src src1 : GstCdioCddaSrc CdIo) (sector : Z) :
  gst_cdio_cdda_src_close src = Some (tt, src1) ->
  let flowret := fst (gst_pad_alloc_buffer CDIO_CD_FRAMESIZE_RAW) in
  let got := cdio_read_audio_sector None sector in
  cdio src1 = None /\
  exists r src2,
    gst_cdio_cdda_src_read_sector sector src1 = Some (r, src2) /\
    (read_rc got <> 0 -> r = None) /\
    (flowret = GST_FLOW_OK -> read_rc got <> 0 ->
       bus src2 = bus src1 ++ [read_failure sector (read_errno got)]) /\
    (forall buf, r = Some buf -> flowret = GST_FLOW_OK /\ read_rc got = 0).
Proof.
  intros Hclose. cbv zeta.
  destruct (close_returns src src1 Hclose) as (_ & Hnull & _).
  split; [exact Hnull|].
  destruct (read_sector_cases src1 sector)
    as (r & src2 & E & _ & _ & _ & _ & Hcases).
  rewrite Hnull in Hcases.
  exists r, src2. split; [exact E|].
  destruct Hcases as [(Hf & Hr & -> & Hb & Hu)
                     |[(Hf & Hr & -> & Hb & Hu)|(Hf & -> & Hb & Hu)]].
  - repeat split; try assumption; intros; congruence.
  - repeat split; try assumption; intros; congruence.
  - repeat split; try assumption; intros; congruence.
Qed.

End Reads.

Section ReadSpeed.

Context {CdIo : Type} {L : Libcdio CdIo} {H : GstHost}.

Lemma validated_in_range (policy : RangePolicy) (pspec : GParamSpecInt) (v v' : Z) :
  minimum pspec <= maximum pspec ->
  g_param_value_validate policy pspec v = Some v' ->
  minimum pspec <= v' <= maximum pspec.
Proof.
  intros Hmm. destruct policy; cbn.
  - destruct (minimum pspec <=? v) eqn:E1; destruct (v <=? maximum pspec) eqn:E2;
      cbn; try discriminate.
    intros E; injection E as <-. apply Z.leb_le in E1, E2. lia.
  - intros E; injection E as <-. lia.
Qed.

Lemma validated_unchanged (policy : RangePolicy) (pspec : GParamSpecInt) (v : Z) :
  minimum pspec <= v <= maximum pspec ->
  g_param_value_validate policy pspec v = Some v.
Proof.
  intros Hv. destruct policy; cbn.
  - replace (minimum pspec <=? v) with true by (symmetry; apply Z.leb_le; lia).
    replace (v <=? maximum pspec) with true by (symmetry; apply Z.leb_le; lia).
    reflexivity.
  - f_equal. lia.
Qed.

(** The element's own setter stores whatever it is handed, and the getter
    returns it: there is no range check on this side of the host. *)
Lemma set_property_stores_unchecked (v : Z) (src : GstCdioCddaSrc CdIo) :
  exists src1 src2,
    gst_cdio_cdda_src_set_property PROP_READ_SPEED v src = Some (tt, src1) /\
    read_speed src1 = v /\
    gst_cdio_cdda_src_get_property PROP_READ_SPEED src1 = Some (Some v, src2).
Proof.
  unfold gst_cdio_cdda_src_set_property, gst_cdio_cdda_src_get_property.
  cbn [PROP_READ_SPEED Z.eqb Pos.eqb]. run.
  eexists _, _. repeat split.
Qed.

(** A property write through the host keeps the read speed in range. *)
Lemma set_property_keeps_range (policy : RangePolicy) (prop_id v : Z)
    (src src' : GstCdioCddaSrc CdIo) :
  g_object_set_property policy prop_id v src = Some (tt, src') ->
  read_speed_in_range src -> read_speed_in_range src'.
Proof.
  unfold g_object_set_property, find_property, gst_cdio_cdda_src_class_init.
  cbn [find fst snd].
  destruct (PROP_READ_SPEED =? prop_id) eqn:Ep.
  - apply Z.eqb_eq in Ep. subst prop_id.
    match goal with
    | |- context [g_param_value_validate policy ?ps v] =>
        destruct (g_param_value_validate policy ps v) as [v'|] eqn:Ev
    end.
    + apply validated_in_range in Ev; [|cbn; lia]. cbn in Ev.
      unfold gst_cdio_cdda_src_set_property. cbn [Z.eqb PROP_READ_SPEED Pos.eqb].
      run. intros E _; injection E as <-. exact Ev.
    + intros E Hr; injection E as <-. exact Hr.
  - intros E Hr; injection E as <-. exact Hr.
Qed.

Lemma get_property_keeps_read_speed (prop_id : Z)
    (src src' : GstCdioCddaSrc CdIo) (r : option Z) :
  g_object_get_property prop_id src = Some (r, src') ->
  read_speed src' = read_speed src.
Proof.
  unfold g_object_get_property, find_property, gst_cdio_cdda_src_class_init.
  cbn [find fst snd].
  destruct (PROP_READ_SPEED =? prop_id) eqn:Ep.
  - unfold gst_cdio_cdda_src_get_property.
    destruct (prop_id =? PROP_READ_SPEED); run;
      intros E; injection E as _ <-; reflexivity.
  - intros E; injection E as _ <-; reflexivity.
Qed.

(** No call other than a property write changes the read speed. *)
Lemma perform_keeps_range (policy : RangePolicy) (c : HostCall)
    (src src' : GstCdioCddaSrc CdIo) :
  perform policy c src = Some src' ->
  read_speed_in_range src -> read_speed_in_range src'.
Proof.
  unfold read_speed_in_range.
  destruct c as [device| |sector| | |prop_id v|prop_id]; cbn [perform].
  - destruct (gst_cdio_cdda_src_open device src) as [[r s]|] eqn:E;
      cbn; [|discriminate].
    intros E'; injection E' as <-.
    rewrite (open_keeps_read_speed _ _ _ _ E). tauto.
  - destruct (gst_cdio_cdda_src_close src) as [[[] s]|] eqn:E;
      cbn; [|discriminate].
    intros E'; injection E' as <-.
    destruct (close_returns _ _ E) as (_ & _ & -> & _). tauto.
  - destruct (read_sector_cases src sector) as (r & s & E & _ & Hs & _).
    rewrite E. cbn. intros E'; injection E' as <-. rewrite Hs. tauto.
  - unfold gst_cdio_cdda_src_probe_devices.
    destruct (cdio_get_devices DRIVER_DEVICE) as [[|d ds]|].
    + run. intros E'; injection E' as <-. cbn. tauto.
    + destruct (log_loop_returns log_device (d :: ds) src) as (s & E & _ & Hs & _).
      unfold bind at 1. rewrite E. run. cbn.
      intros E'; injection E' as <-. rewrite Hs. tauto.
    + run. intros E'; injection E' as <-. cbn. tauto.
  - unfold gst_cdio_cdda_src_get_default_device. run. cbn.
    intros E'; injection E' as <-. cbn. tauto.
  - destruct (g_object_set_property policy prop_id v src) as [[[] s]|] eqn:E;
      cbn; [|discriminate].
    intros E'; injection E' as <-.
    apply (set_property_keeps_range _ _ _ _ _ E).
  - destruct (g_object_get_property prop_id src) as [[r s]|] eqn:E;
      cbn; [|discriminate].
    intros E'; injection E' as <-.
    rewrite (get_property_keeps_read_speed _ _ _ _ E). tauto.
Qed.

(** C8: in every state the element can reach, the stored read speed lies in
    [-1, 100]; writing a value of that range and reading the property back
    returns the value; and a value outside the range is handled by the
    host's one policy: the write is dropped, or the nearest bound is
    stored. *)
Theorem read_speed_round_trip_and_range
    (policy : RangePolicy) (src : GstCdioCddaSrc CdIo) :
  Reachable policy src ->
  read_speed_in_range src /\
  (forall v, -1 <= v <= 100 ->
     exists src1 src2,
       g_object_set_property policy PROP_READ_SPEED v src = Some (tt, src1) /\
       g_object_get_property PROP_READ_SPEED src1 = Some (Some v, src2)) /\
  (forall v, ~ -1 <= v <= 100 ->
     exists src1,
       g_object_set_property policy PROP_READ_SPEED v src = Some (tt, src1) /\
       read_speed src1 = match policy with
                         | Reject => read_speed src
                         | Clamp => if v <? -1 then -1 else 100
                         end).
Proof.
  intros Hreach. split; [|split].
  - induction Hreach as [|src src' c _ IH Hstep].
    + unfold read_speed_in_range. cbn. unfold DEFAULT_READ_SPEED. lia.
    + exact (perform_keeps_range policy c src src' Hstep IH).
  - intros v Hv.
    unfold g_object_set_property, g_object_get_property, find_property,
      gst_cdio_cdda_src_class_init.
    cbn [find fst snd PROP_READ_SPEED Z.eqb Pos.eqb].
    rewrite validated_unchanged by (cbn; lia).
    unfold gst_cdio_cdda_src_set_property, gst_cdio_cdda_src_get_property.
    cbn [PROP_READ_SPEED Z.eqb Pos.eqb]. run.
    eexists _, _. split; reflexivity.
  - intros v Hv.
    unfold g_object_set_property, find_property, gst_cdio_cdda_src_class_init.
    cbn [find fst snd PROP_READ_SPEED Z.eqb Pos.eqb].
    destruct policy; cbn [g_param_value_validate minimum maximum].
    + replace ((-1 <=? v) && (v <=? 100)) with false.
      * eexists; split; reflexivity.
      * symmetry. apply andb_false_iff.
        destruct (Z_lt_le_dec v (-1)); [left; apply Z.leb_gt | right; apply Z.leb_gt];
          lia.
    + unfold gst_cdio_cdda_src_set_property.
      cbn [PROP_READ_SPEED Z.eqb Pos.eqb]. run.
      eexists; split; [reflexivity|]. cbn.
      destruct (v <? -1) eqn:Elt;
        [apply Z.ltb_lt in Elt | apply Z.ltb_ge in Elt]; lia.
Qed.

End ReadSpeed.

(** ** The results on the concrete drive bay *)

Lemma linked_pad_allocates : allocates_requested_size Scenario.linked_pad.
Proof.
  intros size ret_ buf Hsize E _. cbn in E. injection E as _ <-.
  rewrite repeat_length. lia.
Qed.

Lemma flushing_pad_allocates : allocates_requested_size Scenario.flushing_pad.
Proof.
  intros size ret_ buf _ E Hok. cbn in E. injection E as <- _. discriminate Hok.
Qed.

(** The audio disc of the drive bay: tracks 1 and 2, on sectors 0-999 and
    1000-1999. *)
Lemma open_tracks_ascending_and_apart_witness :
  exists src' ts,
    gst_cdio_cdda_src_open (L := Scenario.libcdio 76 (-1))
      (Some "/dev/cdrom"%string) Scenario.fresh = Some (TRUE, src') /\
    tracks src' = tracks Scenario.fresh ++ ts /\
    map num ts = map (fun i => 1 + i) (upto 2) /\
    Forall (fun t => start t <= end_ t) ts /\
    forall (i j : nat) (ti tj : GstCddaBaseSrcTrack),
      nth_error ts i = Some ti -> nth_error ts j = Some tj -> (i < j)%nat ->
      num ti < num tj /\ end_ ti < start tj.
Proof.
  apply (open_tracks_ascending_and_apart (L := Scenario.libcdio 76 (-1))
           Scenario.fresh "/dev/cdrom" Scenario.audio_cd);
    vm_compute; reflexivity.
Defined.

(** The same disc, descriptor by descriptor: two descriptors, one per
    track. *)
Lemma track_end_is_start_plus_length_minus_one_witness :
  exists src' ts,
    gst_cdio_cdda_src_open (L := Scenario.libcdio 76 (-1))
      (Some "/dev/cdrom"%string) Scenario.fresh = Some (TRUE, src') /\
    tracks src' = tracks Scenario.fresh ++ ts /\
    Z.of_nat (List.length ts) = 2 /\
    forall i : nat,
      Z.of_nat i < 2 ->
      exists t,
        nth_error ts i = Some t /\
        let n := to_gint (Z.of_nat i + 1) in
        let lsn := Scenario.track_lsn Scenario.audio_cd n in
        let len := Scenario.track_sec_count Scenario.audio_cd n in
        start t = to_guint lsn /\
        end_ t = to_guint (start t + len - 1) /\
        (0 <= lsn <= G_MAXUINT -> 0 <= lsn + len - 1 <= G_MAXUINT ->
         start t = lsn /\ end_ t = start t + len - 1).
Proof.
  apply (track_end_is_start_plus_length_minus_one (L := Scenario.libcdio 76 (-1))
           Scenario.fresh "/dev/cdrom" Scenario.audio_cd);
    vm_compute; (reflexivity || discriminate).
Defined.

(** C4 as written fails where the [guint] arithmetic wraps: for a track at
    LSN 0 whose sector count the library reports as 0, the descriptor has
    start 0 and end 4294967295, not 0 + 0 - 1. *)
Lemma track_end_wraps_for_empty_track :
  ~ track_end_is_exactly_start_plus_length_minus_one.
Proof.
  intros Hclaim.
  assert (Hrun : exists src' t,
            gst_cdio_cdda_src_open (L := libcdio_without_lengths)
              (Some "/dev/cdrom"%string) Scenario.fresh = Some (TRUE, src') /\
            nth_error (tracks src') 0 = Some t /\
            start t = 0 /\ end_ t = 4294967295).
  { eexists _, _. split; [vm_compute; reflexivity|]. vm_compute. repeat split. }
  destruct Hrun as (src' & t & E & Ht & Hstart & Hend).
  destruct (Hclaim Scenario.Disc libcdio_without_lengths Scenario.fresh src'
              "/dev/cdrom"%string Scenario.audio_cd TRUE
              eq_refl eq_refl E 0%nat t Ht) as (_ & Hexact).
  rewrite Hstart, Hend in Hexact. vm_compute in Hexact. discriminate Hexact.
Qed.

(** The disc in audio mode that reports no tracks. *)
Lemma open_empty_disc_succeeds_witness :
  exists src',
    gst_cdio_cdda_src_open (L := Scenario.libcdio 76 (-1))
      (Some "/dev/blank"%string) Scenario.fresh = Some (TRUE, src') /\
    tracks src' = tracks Scenario.fresh /\
    (tracks Scenario.fresh = [] -> tracks src' = []) /\
    bus src' = bus Scenario.fresh /\ cdio src' = Some Scenario.blank_cd.
Proof.
  apply (open_empty_disc_succeeds (L := Scenario.libcdio 76 (-1))
           Scenario.fresh "/dev/blank" Scenario.blank_cd);
    [reflexivity | reflexivity | reflexivity | left; vm_compute; discriminate].
Defined.

(** C2 on the two failure paths.  When the device cannot be opened, open
    returns FALSE and the element holds no handle.  When the mode check
    refuses a data disc, open returns FALSE and hands over no track, but the
    handle of the data disc stays in the element and cdio_destroy is never
    called.  The two states differ under the element's own assertions: after
    the first a close aborts, after the second another open aborts. *)
Example failed_open_keeps_handle :
  (exists src',
     gst_cdio_cdda_src_open (L := Scenario.libcdio 76 (-1))
       (Some "/dev/none"%string) Scenario.fresh = Some (FALSE, src') /\
     cdio src' = None /\ tracks src' = [] /\ drive src' = [] /\
     gst_cdio_cdda_src_close src' = None) /\
  (exists src',
     gst_cdio_cdda_src_open (L := Scenario.libcdio 76 (-1))
       (Some "/dev/dvd"%string) Scenario.fresh = Some (FALSE, src') /\
     cdio src' = Some Scenario.data_cd /\
     tracks src' = [] /\ drive src' = [] /\
     gst_cdio_cdda_src_open (L := Scenario.libcdio 76 (-1))
       (Some "/dev/dvd"%string) src' = None).
Proof.
  split.
  - eexists. split; [vm_compute; reflexivity|]. vm_compute. repeat split.
  - eexists. split; [vm_compute; reflexivity|]. vm_compute. repeat split.
Qed.

(** Read speed 4 on the audio disc with libcdio 76: one cdio_set_speed call. *)
Lemma open_applies_read_speed_witness :
  exists src',
    gst_cdio_cdda_src_open (L := Scenario.libcdio 76 (-1))
      (Some "/dev/cdrom"%string) (Scenario.fresh_with_speed 4)
      = Some (TRUE, src') /\
    cdio src' = Some Scenario.audio_cd /\
    drive src' = [call_set_speed Scenario.audio_cd 4] /\
    warnings src' = [].
Proof.
  destruct (open_applies_read_speed (L := Scenario.libcdio 76 (-1))
              (Scenario.fresh_with_speed 4) "/dev/cdrom" Scenario.audio_cd)
    as (src' & E & Hc & _ & Hspeed);
    [reflexivity | reflexivity | reflexivity |].
  destruct Hspeed as (_ & Hset & _);
    [vm_compute; reflexivity | vm_compute; discriminate |].
  destruct Hset as (Hd & Hw);
    [vm_compute; discriminate | vm_compute; discriminate |].
  exists src'. repeat split; assumption.
Defined.

(** C6 as written fails on the disc without tracks: with read speed 4
    configured the open succeeds, yet no speed is applied and nothing is
    logged about it. *)
Lemma speed_not_applied_on_empty_disc :
  ~ speed_applied_on_every_successful_open.
Proof.
  intros Hclaim.
  destruct (Hclaim Scenario.Disc (Scenario.libcdio 76 (-1))
              (Scenario.fresh_with_speed 4)
              {| cdio := Some Scenario.blank_cd; read_speed := 4; tracks := [];
                 bus := [];
                 log := [log_trying_to_open "/dev/blank";
                         log_discmode CDIO_DISC_MODE_CD_DA];
                 drive := []; unreffed := [] |}
              "/dev/blank"%string eq_refl) as (Happlied & _).
  destruct Happlied as [(p & _ & Hd)|Hw].
  - cbn. discriminate.
  - discriminate Hd.
  - apply Hw. reflexivity.
Qed.

(** Sector 500 of the opened audio disc on a linked pad: one full frame. *)
Lemma read_sector_frame_failure_or_no_buffer_witness :
  allocates_requested_size Scenario.linked_pad /\
  exists buf src',
    gst_cdio_cdda_src_read_sector (L := Scenario.libcdio 76 (-1))
      (H := Scenario.linked_pad) 500 (Scenario.opened 76 (-1) (-1))
      = Some (Some buf, src') /\
    Z.of_nat (List.length buf) = CDIO_CD_FRAMESIZE_RAW /\
    bus src' = bus (Scenario.opened 76 (-1) (-1)).
Proof.
  split; [exact linked_pad_allocates|].
  destruct (read_sector_frame_failure_or_no_buffer
              (L := Scenario.libcdio 76 (-1)) (H := Scenario.linked_pad)
              (Scenario.opened 76 (-1) (-1)) 500 linked_pad_allocates)
    as (r & src' & E & [(_ & _ & (buf & -> & Hlen) & Hb & _)
                       |[(_ & Hrc & _)|(Hf & _)]]).
  - exists buf, src'. repeat split; assumption.
  - exfalso. apply Hrc. vm_compute. reflexivity.
  - exfalso. apply Hf. vm_compute. reflexivity.
Defined.

(** C3 as written fails when the pad is flushing: the handle is open and
    sector 500 lies in track 1, yet read_sector returns no buffer and posts
    no read failure. *)
Lemma no_buffer_without_read_failure :
  ~ read_sector_frame_or_failure.
Proof.
  intros Hclaim.
  destruct (Hclaim Scenario.Disc (Scenario.libcdio 76 (-1)) Scenario.flushing_pad
              (Scenario.opened 76 (-1) (-1)) 500 flushing_pad_allocates)
    as (r & src' & E & Hout).
  - vm_compute. discriminate.
  - exists {| is_audio := true; num := 1; start := 0; end_ := 999;
              tags := Some [(GST_TAG_TITLE, "Intro"%string)] |}.
    split; [left; vm_compute; reflexivity | cbn; lia].
  - vm_compute in E. injection E as <- <-.
    destruct Hout as [(buf & Hbuf & _)|(_ & cause & Hbus)].
    + discriminate Hbuf.
    + vm_compute in Hbus. discriminate Hbus.
Qed.

(** Against a library that reports an error for a null handle, the read
    after close is rejected with a read failure. *)
Lemma read_after_close_is_left_to_the_library_witness :
  cdio (Scenario.closed 76 (-1) (-1)) = None /\
  exists src2,
    gst_cdio_cdda_src_read_sector (L := Scenario.libcdio 76 (-1))
      (H := Scenario.linked_pad) 500 (Scenario.closed 76 (-1) (-1))
      = Some (None, src2) /\
    bus src2 =
      bus (Scenario.closed 76 (-1) (-1)) ++ [read_failure 500 0].
Proof.
  destruct (read_after_close_is_left_to_the_library
              (L := Scenario.libcdio 76 (-1)) (H := Scenario.linked_pad)
              (Scenario.opened 76 (-1) (-1)) (Scenario.closed 76 (-1) (-1)) 500)
    as (Hnull & r & src2 & E & Hrej & Hbus & _);
    [vm_compute; reflexivity|].
  split; [exact Hnull|]. exists src2.
  rewrite Hrej in E by (vm_compute; discriminate).
  split; [exact E|].
  apply Hbus; [vm_compute; reflexivity | vm_compute; discriminate].
Defined.

(** C7 as written fails against a library that reports success for a null
    handle: after close, read_sector returns a buffer and posts no error. *)
Lemma read_after_close_can_return_a_buffer :
  ~ read_after_close_never_succeeds.
Proof.
  intros Hclaim.
  eapply (Hclaim Scenario.Disc (Scenario.libcdio 76 0) Scenario.linked_pad
            (Scenario.opened 76 0 (-1)) (Scenario.closed 76 0 (-1)) 500).
  - vm_compute. reflexivity.
  - cbv. reflexivity.
Qed.

(** The freshly initialised element under the rejecting policy. *)
Lemma read_speed_round_trip_and_range_witness :
  read_speed_in_range (gst_cdio_cdda_src_init (CdIo := Scenario.Disc)) /\
  (forall v, -1 <= v <= 100 ->
     exists src1 src2,
       g_object_set_property (CdIo := Scenario.Disc) Reject PROP_READ_SPEED v
         gst_cdio_cdda_src_init
         = Some (tt, src1) /\
       g_object_get_property (CdIo := Scenario.Disc) PROP_READ_SPEED src1
         = Some (Some v, src2)) /\
  (forall v, ~ -1 <= v <= 100 ->
     exists src1,
       g_object_set_property (CdIo := Scenario.Disc) Reject PROP_READ_SPEED v
         gst_cdio_cdda_src_init
         = Some (tt, src1) /\
       read_speed src1 = read_speed (gst_cdio_cdda_src_init (CdIo := Scenario.Disc))).
Proof.
  apply (read_speed_round_trip_and_range (L := Scenario.libcdio 76 (-1))
           (H := Scenario.linked_pad) Reject gst_cdio_cdda_src_init).
  apply reach_init.
Defined.

(** * Further results on the element *)

Section OpenPaths.

Context {CdIo : Type} {L : Libcdio CdIo}.

(** Every path through an open that starts without a handle. *)
Lemma open_cases (src : GstCdioCddaSrc CdIo) (device : string) :
  cdio src = None ->
  exists r src',
    gst_cdio_cdda_src_open (Some device) src = Some (r, src') /\
    cdio src' = cdio_open device DRIVER_UNKNOWN /\
    read_speed src' = read_speed src /\
    unreffed src' = unreffed src /\
    match cdio_open device DRIVER_UNKNOWN with
    | None =>
        r = FALSE /\ tracks src' = tracks src /\ drive src' = drive src /\
        bus src' = bus src ++
          [open_error "Could not open CD device for reading."
             (debug_cdio_open_failed (cdio_open_errno device))]
    | Some p =>
        if audio_discmode (cdio_get_discmode p) then
          r = TRUE /\ bus src' = bus src /\
          if (cdio_get_num_tracks p <=? 0) || (cdio_get_first_track_num p <? 0)
          then tracks src' = tracks src /\ drive src' = drive src
          else tracks src' =
                 tracks src ++ map (track_descriptor p (cdio_get_first_track_num p))
                                   (upto (cdio_get_num_tracks p)) /\
               drive src' = drive src ++ speed_calls p (read_speed src)
        else
          r = FALSE /\ tracks src' = tracks src /\ drive src' = drive src /\
          bus src' = bus src ++
            [open_error "Disc is not an Audio CD."
               (debug_discmode (cdio_get_discmode p))]
    end.
Proof.
  intros Hnull.
  destruct (cdio_open device DRIVER_UNKNOWN) as [p|] eqn:Hopen.
  - destruct (audio_discmode (cdio_get_discmode p)) eqn:Hmode.
    + destruct ((cdio_get_num_tracks p <=? 0) || (cdio_get_first_track_num p <? 0))
        eqn:Hempty.
      * apply orb_true_iff in Hempty.
        assert (Hempty' : cdio_get_num_tracks p <= 0 \/ cdio_get_first_track_num p < 0)
          by (destruct Hempty as [E|E];
              [left; apply Z.leb_le in E | right; apply Z.ltb_lt in E]; lia).
        destruct (open_without_tracks src device p Hnull Hopen Hmode Hempty')
          as (src' & E & Hc & Hs & Ht & Hb & Hd & _ & Hu).
        exists TRUE, src'. repeat split; assumption.
      * apply orb_false_iff in Hempty. destruct Hempty as (En & Ef).
        apply Z.leb_gt in En. apply Z.ltb_ge in Ef.
        destruct (open_with_tracks src device p Hnull Hopen Hmode En Ef)
          as (src' & E & Hc & Hs & Ht & Hb & Hd & _ & Hu).
        exists TRUE, src'. repeat split; assumption.
    + unfold gst_cdio_cdda_src_open. run. rewrite Hnull. run.
      rewrite Hopen, (mode_check_fails _ Hmode).
      eexists _, _. split; [reflexivity|]. cbn. repeat split.
  - unfold gst_cdio_cdda_src_open. run. rewrite Hnull. run.
    rewrite Hopen. eexists _, _. split; [reflexivity|]. cbn. repeat split.
Qed.

(** X1: an open that starts without a handle always returns; it returns
    TRUE exactly when the device could be opened and the disc is in audio or
    mixed mode.  A TRUE return posts no error, a FALSE return posts exactly
    one, an open-for-reading error.  Either way the element's handle field is
    what cdio_open returned. *)
Theorem open_succeeds_iff_audio_disc
    (src : GstCdioCddaSrc CdIo) (device : string) :
  cdio src = None ->
  exists r src',
    gst_cdio_cdda_src_open (Some device) src = Some (r, src') /\
    cdio src' = cdio_open device DRIVER_UNKNOWN /\
    (r = TRUE <->
       exists p, cdio_open device DRIVER_UNKNOWN = Some p /\
                 audio_discmode (cdio_get_discmode p) = true) /\
    (r = TRUE -> bus src' = bus src) /\
    (r = FALSE ->
       exists m, bus src' = bus src ++ [m] /\
                 error_code m = GST_RESOURCE_ERROR_OPEN_READ).
Proof.
  intros Hnull.
  destruct (open_cases src device Hnull) as (r & src' & E & Hc & _ & _ & Hpath).
  exists r, src'. split; [exact E|]. split; [exact Hc|].
  destruct (cdio_open device DRIVER_UNKNOWN) as [p|].
  - destruct (audio_discmode (cdio_get_discmode p)) eqn:Hmode.
    + destruct Hpath as (-> & Hb & _). repeat split.
      * intros _. exists p. split; [reflexivity | exact Hmode].
      * intros _. exact Hb.
      * discriminate.
    + destruct Hpath as (-> & _ & _ & Hb). repeat split.
      * discriminate.
      * intros (q & Eq & Hq). injection Eq as <-. congruence.
      * discriminate.
      * intros _. eexists. split; [exact Hb | reflexivity].
  - destruct Hpath as (-> & _ & _ & Hb). repeat split.
    + discriminate.
    + intros (q & Eq & _). discriminate Eq.
    + discriminate.
    + intros _. eexists. split; [exact Hb | reflexivity].
Qed.

(** X2: what a failed open reports.  If the device cannot be opened, the one
    message posted carries errno as left by cdio_open; if the disc is in
    neither audio nor mixed mode, it carries the disc mode found.  In both
    cases no track is handed over and no call is made into the drive. *)
Theorem open_failure_is_reported
    (src : GstCdioCddaSrc CdIo) (device : string) :
  cdio src = None ->
  (cdio_open device DRIVER_UNKNOWN = None ->
   exists src',
     gst_cdio_cdda_src_open (Some device) src = Some (FALSE, src') /\
     tracks src' = tracks src /\ drive src' = drive src /\
     bus src' = bus src ++
       [open_error "Could not open CD device for reading."
          (debug_cdio_open_failed (cdio_open_errno device))]) /\
  (forall p,
     cdio_open device DRIVER_UNKNOWN = Some p ->
     audio_discmode (cdio_get_discmode p) = false ->
     exists src',
       gst_cdio_cdda_src_open (Some device) src = Some (FALSE, src') /\
       tracks src' = tracks src /\ drive src' = drive src /\
       bus src' = bus src ++
         [open_error "Disc is not an Audio CD."
            (debug_discmode (cdio_get_discmode p))]).
Proof.
  intros Hnull.
  destruct (open_cases src device Hnull) as (r & src' & E & _ & _ & _ & Hpath).
  split.
  - intros Hopen. rewrite Hopen in Hpath.
    destruct Hpath as (-> & Ht & Hd & Hb). exists src'. repeat split; assumption.
  - intros p Hopen Hmode. rewrite Hopen, Hmode in Hpath.
    destruct Hpath as (-> & Ht & Hd & Hb). exists src'. repeat split; assumption.
Qed.

(** An open that returned was given a device and started without a
    handle. *)
Lemma open_returned (src src' : GstCdioCddaSrc CdIo) (device : option string)
    (r : gboolean) :
  gst_cdio_cdda_src_open device src = Some (r, src') ->
  exists d, device = Some d /\ cdio src = None.
Proof.
  intros E. destruct device as [d|]; [|discriminate E].
  exists d. split; [reflexivity|].
  destruct (cdio src) as [q|] eqn:Hheld; [|reflexivity].
  revert E. unfold gst_cdio_cdda_src_open. run. rewrite Hheld. discriminate.
Qed.

(** X3: open aborts on its two assertions and only there: it fails to
    return exactly when it is given no device or the element already holds a
    handle. *)
Theorem open_aborts_iff_contract_violated
    (src : GstCdioCddaSrc CdIo) (device : option string) :
  gst_cdio_cdda_src_open device src = None <->
  device = None \/ cdio src <> None.
Proof.
  split.
  - intros Habort. destruct device as [d|]; [right|left; reflexivity].
    destruct (cdio src) as [q|] eqn:Hnull; [discriminate|].
    destruct (open_cases src d Hnull) as (r & src' & E & _). congruence.
  - intros [-> | Hheld].
    + reflexivity.
    + destruct device as [d|]; [|reflexivity].
      unfold gst_cdio_cdda_src_open. run.
      destruct (cdio src) as [q|]; [reflexivity | contradiction].
Qed.

End OpenPaths.

Section Descriptions.

Context {CdIo : Type} {L : Libcdio CdIo}.

Lemma upto_counts_up (n : Z) : counts_up (upto n).
Proof. intros k i Hk. apply (nth_error_upto n k i Hk). Qed.

(** Whatever an open of an openable device returns, the descriptors it
    hands over are those of the loop, built for counters 0, 1, 2, ... *)
Lemma open_descriptors (src : GstCdioCddaSrc CdIo) (device : string) (p : CdIo) :
  cdio src = None ->
  cdio_open device DRIVER_UNKNOWN = Some p ->
  exists r src' l,
    gst_cdio_cdda_src_open (Some device) src = Some (r, src') /\
    counts_up l /\
    tracks src' =
      tracks src ++ map (track_descriptor p (cdio_get_first_track_num p)) l.
Proof.
  intros Hnull Hopen.
  destruct (open_cases src device Hnull) as (r & src' & E & _ & _ & _ & Hpath).
  rewrite Hopen in Hpath.
  destruct (audio_discmode (cdio_get_discmode p)).
  - destruct Hpath as (_ & _ & Hpath).
    destruct ((cdio_get_num_tracks p <=? 0) || (cdio_get_first_track_num p <? 0)).
    + destruct Hpath as (Ht & _). exists r, src', [].
      split; [exact E|]. split; [intros [|k] i Hk; discriminate Hk|].
      rewrite app_nil_r. exact Ht.
    + destruct Hpath as (Ht & _). exists r, src', (upto (cdio_get_num_tracks p)).
      split; [exact E|]. split; [apply upto_counts_up | exact Ht].
  - destruct Hpath as (_ & Ht & _). exists r, src', [].
    split; [exact E|]. split; [intros [|k] i Hk; discriminate Hk|].
    rewrite app_nil_r. exact Ht.
Qed.

(** X4: once the mode and empty-disc checks are passed, open hands over
    exactly num_tracks descriptors, whatever the library reports about the
    single tracks (there is no check on a track's format, start or length);
    the descriptor at position i is numbered first_track + i, as long as
    that number fits a [gint]. *)
Theorem open_hands_over_every_reported_track
    (src : GstCdioCddaSrc CdIo) (device : string) (p : CdIo) :
  cdio src = None ->
  cdio_open device DRIVER_UNKNOWN = Some p ->
  audio_discmode (cdio_get_discmode p) = true ->
  0 < cdio_get_num_tracks p ->
  0 <= cdio_get_first_track_num p ->
  exists src' ts,
    gst_cdio_cdda_src_open (Some device) src = Some (TRUE, src') /\
    tracks src' = tracks src ++ ts /\
    Z.of_nat (List.length ts) = cdio_get_num_tracks p /\
    forall (i : nat) (t : GstCddaBaseSrcTrack),
      nth_error ts i = Some t ->
      cdio_get_first_track_num p + Z.of_nat i <= G_MAXINT ->
      num t = cdio_get_first_track_num p + Z.of_nat i.
Proof.
  intros Hnull Hopen Hmode Hn Hf.
  destruct (open_with_tracks src device p Hnull Hopen Hmode Hn Hf)
    as (src' & E & _ & _ & Ht & _).
  exists src', (map (track_descriptor p (cdio_get_first_track_num p))
                    (upto (cdio_get_num_tracks p))).
  split; [exact E|]. split; [exact Ht|]. split.
  - unfold upto. rewrite !length_map, length_seq. lia.
  - intros i t Hi Hfit. rewrite nth_error_map in Hi.
    destruct (nth_error (upto (cdio_get_num_tracks p)) i) as [z|] eqn:Ei;
      [|discriminate].
    injection Hi as <-. apply nth_error_upto in Ei. destruct Ei as (-> & _).
    unfold track_descriptor; cbn [num].
    replace (Z.of_nat i + cdio_get_first_track_num p)
      with (cdio_get_first_track_num p + Z.of_nat i) by lia.
    rewrite to_gint_small by (unfold G_MININT, G_MAXINT in *; lia).
    apply to_guint_small. unfold G_MAXUINT, G_MAXINT in *. lia.
Qed.

(** X5: once the mode check and the empty-disc check are passed, every one
    of the num_tracks tracks gets a descriptor, whatever its format, and the
    descriptor is marked as audio exactly when the library reports the
    track's format as TRACK_FORMAT_AUDIO: a track of any other format is
    handed over all the same, marked as not audio. *)
Theorem track_is_audio_iff_audio_format
    (src : GstCdioCddaSrc CdIo) (device : string) (p : CdIo) :
  cdio src = None ->
  cdio_open device DRIVER_UNKNOWN = Some p ->
  audio_discmode (cdio_get_discmode p) = true ->
  0 < cdio_get_num_tracks p ->
  0 <= cdio_get_first_track_num p ->
  exists src' ts,
    gst_cdio_cdda_src_open (Some device) src = Some (TRUE, src') /\
    tracks src' = tracks src ++ ts /\
    Z.of_nat (List.length ts) = cdio_get_num_tracks p /\
    forall i : nat,
      Z.of_nat i < cdio_get_num_tracks p ->
      exists t,
        nth_error ts i = Some t /\
        let format :=
          cdio_get_track_format p
            (to_gint (Z.of_nat i + cdio_get_first_track_num p)) in
        (is_audio t = true <-> format = TRACK_FORMAT_AUDIO) /\
        (format <> TRACK_FORMAT_AUDIO -> is_audio t = false).
Proof.
  intros Hnull Hopen Hmode Hn Hf.
  destruct (open_with_tracks src device p Hnull Hopen Hmode Hn Hf)
    as (src' & E & _ & _ & Ht & _).
  exists src', (map (track_descriptor p (cdio_get_first_track_num p))
                    (upto (cdio_get_num_tracks p))).
  split; [exact E|]. split; [exact Ht|]. split.
  - unfold upto. rewrite !length_map, length_seq. lia.
  - intros i Hi.
    exists (track_descriptor p (cdio_get_first_track_num p) (Z.of_nat i)).
    split.
    + rewrite nth_error_map. unfold upto. rewrite nth_error_map.
      rewrite nth_error_nth' with (d := 0%nat) by (rewrite length_seq; lia).
      rewrite seq_nth by lia. reflexivity.
    + cbv zeta.
      unfold track_descriptor, notcdio_track_is_audio_track; cbn [is_audio].
      destruct (cdio_get_track_format p _); cbn; repeat split;
        try reflexivity; try discriminate; intros Hne; congruence.
Qed.

(** X6: missing CD-TEXT is no error.  With a libcdio older than version 76,
    or when the library has no CD-TEXT for a track, the track's descriptor
    is handed over with no tag list; open's result does not depend on it. *)
Theorem track_without_cdtext_has_no_tags
    (src : GstCdioCddaSrc CdIo) (device : string) (p : CdIo) :
  cdio src = None ->
  cdio_open device DRIVER_UNKNOWN = Some p ->
  exists r src' ts,
    gst_cdio_cdda_src_open (Some device) src = Some (r, src') /\
    (r = TRUE <-> audio_discmode (cdio_get_discmode p) = true) /\
    tracks src' = tracks src ++ ts /\
    forall (i : nat) (t : GstCddaBaseSrcTrack),
      nth_error ts i = Some t ->
      LIBCDIO_VERSION_NUM < 76 \/
      cdio_get_cdtext p (to_gint (Z.of_nat i + cdio_get_first_track_num p)) = None ->
      tags t = None.
Proof.
  intros Hnull Hopen.
  destruct (open_descriptors src device p Hnull Hopen)
    as (r & src' & l & E & Hl & Ht).
  exists r, src', (map (track_descriptor p (cdio_get_first_track_num p)) l).
  split; [exact E|]. split; [|split; [exact Ht|]].
  - destruct (open_cases src device Hnull) as (r' & s' & E' & _ & _ & _ & Hpath).
    rewrite E in E'. injection E' as <- <-. rewrite Hopen in Hpath.
    destruct (audio_discmode (cdio_get_discmode p)).
    + destruct Hpath as (-> & _). tauto.
    + destruct Hpath as (-> & _). split; discriminate.
  - intros i t Hi Hno. rewrite nth_error_map in Hi.
    destruct (nth_error l i) as [z|] eqn:Ei; [|discriminate].
    injection Hi as <-. rewrite (Hl i z Ei).
    unfold track_descriptor, cdtext_tags; cbn [tags].
    destruct (76 <=? LIBCDIO_VERSION_NUM) eqn:Ev; [|reflexivity].
    apply Z.leb_le in Ev. destruct Hno as [Hold|Hnone]; [lia|].
    rewrite Hnone. reflexivity.
Qed.

(** X7: whatever open returns, it has made at most one call into the drive,
    and never a cdio_destroy: also an open that fails leaves the drive
    alone. *)
Theorem open_never_destroys
    (src src' : GstCdioCddaSrc CdIo) (device : option string) (r : gboolean) :
  gst_cdio_cdda_src_open device src = Some (r, src') ->
  exists calls,
    drive src' = drive src ++ calls /\
    (List.length calls <= 1)%nat /\
    existsb is_destroy calls = false.
Proof.
  intros E.
  destruct (open_returned _ _ _ _ E) as (d & -> & Hnull).
  destruct (open_cases src d Hnull) as (r' & s' & E' & _ & _ & _ & Hpath).
  rewrite E in E'. injection E' as <- <-.
  assert (Hnone : drive src' = drive src ->
                  exists calls, drive src' = drive src ++ calls /\
                    (List.length calls <= 1)%nat /\
                    existsb is_destroy calls = false).
  { intros Hd. exists []. rewrite app_nil_r. split; [exact Hd|].
    split; [cbn; lia | reflexivity]. }
  destruct (cdio_open d DRIVER_UNKNOWN) as [p|].
  - destruct (audio_discmode (cdio_get_discmode p)).
    + destruct Hpath as (_ & _ & Hpath).
      destruct ((cdio_get_num_tracks p <=? 0) || (cdio_get_first_track_num p <? 0)).
      * apply Hnone. tauto.
      * destruct Hpath as (_ & Hd). unfold speed_calls in Hd.
        destruct (negb (read_speed src =? -1) && (76 <=? LIBCDIO_VERSION_NUM)).
        -- eexists. split; [exact Hd|]. cbn. split; [lia | reflexivity].
        -- apply Hnone. rewrite Hd. apply app_nil_r.
    + apply Hnone. tauto.
  - apply Hnone. tauto.
Qed.

End Descriptions.

Section CloseAndReopen.

Context {CdIo : Type} {L : Libcdio CdIo}.

(** A close of an element that holds a handle. *)
Lemma close_cases (src : GstCdioCddaSrc CdIo) (p : CdIo) :
  cdio src = Some p ->
  exists src',
    gst_cdio_cdda_src_close src = Some (tt, src') /\
    cdio src' = None /\
    drive src' = drive src ++ [call_destroy p] /\
    read_speed src' = read_speed src /\ tracks src' = tracks src /\
    bus src' = bus src /\ log src' = log src /\
    unreffed src' = unreffed src.
Proof.
  intros Hheld. unfold gst_cdio_cdda_src_close. run. rewrite Hheld. run.
  rewrite Hheld. eexists. split; [reflexivity|]. cbn. repeat split.
Qed.

Lemma close_aborts_without_handle (src : GstCdioCddaSrc CdIo) :
  cdio src = None -> gst_cdio_cdda_src_close src = None.
Proof.
  intros Hnull. unfold gst_cdio_cdda_src_close. run. rewrite Hnull. reflexivity.
Qed.

(** The result of an open that starts without a handle is decided by the
    device and its disc alone. *)
Lemma open_result_repeats (a b a' b' : GstCdioCddaSrc CdIo) (device : string)
    (r r' : gboolean) :
  cdio a = None -> cdio b = None ->
  gst_cdio_cdda_src_open (Some device) a = Some (r, a') ->
  gst_cdio_cdda_src_open (Some device) b = Some (r', b') ->
  r = r'.
Proof.
  intros Ha Hb Ea Eb.
  destruct (open_cases a device Ha) as (ra & sa & Ea' & _ & _ & _ & Hpa).
  destruct (open_cases b device Hb) as (rb & sb & Eb' & _ & _ & _ & Hpb).
  rewrite Ea in Ea'. injection Ea' as <- <-.
  rewrite Eb in Eb'. injection Eb' as <- <-.
  destruct (cdio_open device DRIVER_UNKNOWN) as [p|].
  - destruct (audio_discmode (cdio_get_discmode p)).
    + destruct Hpa as (-> & _), Hpb as (-> & _). reflexivity.
    + destruct Hpa as (-> & _), Hpb as (-> & _). reflexivity.
  - destruct Hpa as (-> & _), Hpb as (-> & _). reflexivity.
Qed.

(** X8: close aborts on an element without a handle; on an element that
    holds one it calls cdio_destroy once, on that handle, clears the handle
    field and changes nothing else, so that a second close aborts. *)
Theorem close_releases_the_handle (src : GstCdioCddaSrc CdIo) :
  (cdio src = None -> gst_cdio_cdda_src_close src = None) /\
  (forall p, cdio src = Some p ->
     exists src',
       gst_cdio_cdda_src_close src = Some (tt, src') /\
       cdio src' = None /\
       drive src' = drive src ++ [call_destroy p] /\
       read_speed src' = read_speed src /\ tracks src' = tracks src /\
       bus src' = bus src /\ log src' = log src /\
       unreffed src' = unreffed src /\
       gst_cdio_cdda_src_close src' = None).
Proof.
  split; [apply close_aborts_without_handle|].
  intros p Hheld.
  destruct (close_cases src p Hheld)
    as (src' & E & Hc & Hd & Hs & Ht & Hb & Hl & Hu).
  exists src'. repeat split; try assumption.
  apply close_aborts_without_handle. exact Hc.
Qed.

(** X9: open and close compose.  Whatever an open of an openable device
    returned (TRUE, or FALSE for a disc in the wrong mode), a close
    afterwards destroys the handle it left, and the same device can then be
    opened again with the same result. *)
Theorem close_allows_reopen
    (src : GstCdioCddaSrc CdIo) (device : string) (p : CdIo) :
  cdio src = None ->
  cdio_open device DRIVER_UNKNOWN = Some p ->
  exists r s1 s2 s3,
    gst_cdio_cdda_src_open (Some device) src = Some (r, s1) /\
    gst_cdio_cdda_src_close s1 = Some (tt, s2) /\
    drive s2 = drive s1 ++ [call_destroy p] /\
    gst_cdio_cdda_src_open (Some device) s2 = Some (r, s3) /\
    cdio s3 = Some p.
Proof.
  intros Hnull Hopen.
  destruct (open_cases src device Hnull) as (r & s1 & E1 & Hc1 & _).
  rewrite Hopen in Hc1.
  destruct (close_cases s1 p Hc1) as (s2 & E2 & Hc2 & Hd2 & _).
  destruct (open_cases s2 device Hc2) as (r' & s3 & E3 & Hc3 & _).
  rewrite Hopen in Hc3.
  rewrite <- (open_result_repeats src s2 s1 s3 device r r' Hnull Hc2 E1 E3) in E3.
  exists r, s1, s2, s3. repeat split; assumption.
Qed.

End CloseAndReopen.

Section SectorReads.

Context {CdIo : Type} {L : Libcdio CdIo} {H : GstHost}.

(** X10: read_sector leaves the session as it is: whether it returns a
    buffer or not, the handle, the read speed, the track list and the drive
    are untouched (a failed read closes nothing), and a buffer is released
    only together with a posted read failure. *)
Theorem read_sector_keeps_the_session
    (src : GstCdioCddaSrc CdIo) (sector : Z) :
  exists r src',
    gst_cdio_cdda_src_read_sector sector src = Some (r, src') /\
    cdio src' = cdio src /\ read_speed src' = read_speed src /\
    tracks src' = tracks src /\ drive src' = drive src /\
    ((bus src' = bus src /\ unreffed src' = unreffed src) \/
     (r = None /\
      exists cause buf,
        bus src' = bus src ++ [read_failure sector cause] /\
        unreffed src' = unreffed src ++ [buf])).
Proof.
  destruct (read_sector_cases src sector)
    as (r & src' & E & Hc & Hs & Ht & Hd & Hcases).
  exists r, src'. repeat split; try assumption.
  destruct Hcases as [(_ & _ & _ & Hb & Hu)
                     |[(_ & _ & -> & Hb & Hu)|(_ & _ & Hb & Hu)]].
  - left. split; assumption.
  - right. split; [reflexivity|]. eexists _, _. split; eassumption.
  - left. split; assumption.
Qed.

(** X11: the buffer read_sector returns is the one the library wrote into.
    With a host that allocates the size asked for, the returned buffer
    starts with the bytes the library stored, and when the library stored a
    whole frame the buffer is exactly those bytes. *)
Theorem read_sector_returns_what_the_library_stored
    (src src' : GstCdioCddaSrc CdIo) (sector : Z) (buf : GstBuffer) :
  allocates_requested_size H ->
  gst_cdio_cdda_src_read_sector sector src = Some (Some buf, src') ->
  let stored := read_stored (cdio_read_audio_sector (cdio src) sector) in
  (Z.of_nat (List.length stored) <= CDIO_CD_FRAMESIZE_RAW ->
   firstn (List.length stored) buf = stored) /\
  (Z.of_nat (List.length stored) = CDIO_CD_FRAMESIZE_RAW -> buf = stored).
Proof.
  intros Hsize E. cbv zeta.
  destruct (read_sector_cases src sector)
    as (r & s & E' & _ & _ & _ & _ & Hcases).
  rewrite E in E'. injection E' as <- <-.
  destruct Hcases as [(Hf & _ & Hr & _)|[(_ & _ & Hr & _)|(_ & Hr & _)]];
    try discriminate Hr.
  injection Hr as ->.
  assert (Hlen : Z.of_nat (List.length
                   (snd (gst_pad_alloc_buffer CDIO_CD_FRAMESIZE_RAW)))
                 = CDIO_CD_FRAMESIZE_RAW).
  { apply (Hsize _ (fst (gst_pad_alloc_buffer CDIO_CD_FRAMESIZE_RAW))).
    - unfold CDIO_CD_FRAMESIZE_RAW. lia.
    - now destruct (gst_pad_alloc_buffer CDIO_CD_FRAMESIZE_RAW).
    - exact Hf. }
  set (a := snd (gst_pad_alloc_buffer CDIO_CD_FRAMESIZE_RAW)) in *.
  set (st := read_stored (cdio_read_audio_sector (cdio src) sector)) in *.
  unfold store_at_start. split.
  - intros Hle. rewrite (firstn_all2 st) by lia.
    rewrite firstn_app, firstn_all, Nat.sub_diag. cbn. apply app_nil_r.
  - intros Hfull. rewrite (firstn_all2 st) by lia.
    rewrite skipn_all2 by lia. apply app_nil_r.
Qed.

(** X12: the read speed plays no part in a read.  Writing any value to the
    property between two reads changes neither what a read returns nor what
    it posts, and makes no call into the drive. *)
Theorem read_sector_ignores_read_speed
    (src : GstCdioCddaSrc CdIo) (v sector : Z) :
  exists src_v r s1 s2,
    gst_cdio_cdda_src_set_property PROP_READ_SPEED v src = Some (tt, src_v) /\
    gst_cdio_cdda_src_read_sector sector src = Some (r, s1) /\
    gst_cdio_cdda_src_read_sector sector src_v = Some (r, s2) /\
    bus s2 = bus s1 /\ drive s2 = drive src /\ cdio s2 = cdio src.
Proof.
  destruct (set_property_stores_unchecked v src) as (src_v & _ & Eset & _).
  assert (Hsame : cdio src_v = cdio src /\ bus src_v = bus src /\
                  drive src_v = drive src).
  { revert Eset. unfold gst_cdio_cdda_src_set_property.
    cbn [PROP_READ_SPEED Z.eqb Pos.eqb]. run.
    intros Eset; injection Eset as <-. cbn. repeat split. }
  destruct Hsame as (Hc & Hb & Hd).
  destruct (read_sector_cases src sector)
    as (r & s1 & E1 & _ & _ & _ & _ & Hcases1).
  destruct (read_sector_cases src_v sector)
    as (r' & s2 & E2 & Hc2 & _ & _ & Hd2 & Hcases2).
  rewrite Hc, Hb in Hcases2.
  exists src_v, r, s1, s2. split; [exact Eset|]. split; [exact E1|].
  assert (Hr : r' = r /\ bus s2 = bus s1).
  { destruct Hcases1 as [(Hf & Hrc & -> & Hb1 & _)
                        |[(Hf & Hrc & -> & Hb1 & _)|(Hf & -> & Hb1 & _)]];
      destruct Hcases2 as [(Hf' & Hrc' & -> & Hb2 & _)
                          |[(Hf' & Hrc' & -> & Hb2 & _)|(Hf' & -> & Hb2 & _)]];
      try contradiction; try congruence; split; congruence. }
  destruct Hr as (-> & Hbus).
  repeat split; congruence.
Qed.

End SectorReads.

Section PropertiesAndOpen.

Context {CdIo : Type} {L : Libcdio CdIo}.

(** X13: a property id other than PROP_READ_SPEED is refused by both
    accessors: the setter stores nothing and the getter yields no value;
    each logs one warning and leaves the handle and the read speed as they
    are. *)
Theorem unknown_property_id_is_refused
    (src : GstCdioCddaSrc CdIo) (prop_id v : Z) :
  prop_id <> PROP_READ_SPEED ->
  exists s1 s2,
    gst_cdio_cdda_src_set_property prop_id v src = Some (tt, s1) /\
    read_speed s1 = read_speed src /\ cdio s1 = cdio src /\
    warnings s1 = warnings src ++ [log_invalid_property_id prop_id] /\
    gst_cdio_cdda_src_get_property prop_id src = Some (None, s2) /\
    read_speed s2 = read_speed src /\ cdio s2 = cdio src /\
    warnings s2 = warnings src ++ [log_invalid_property_id prop_id].
Proof.
  intros Hid. apply Z.eqb_neq in Hid.
  unfold gst_cdio_cdda_src_set_property, gst_cdio_cdda_src_get_property.
  rewrite Hid. run. eexists _, _.
  split; [reflexivity|]. cbn [cdio read_speed].
  split; [reflexivity|]. split; [reflexivity|].
  split; [unfold warnings; cbn [log]; rewrite filter_app; reflexivity|].
  split; [reflexivity|]. cbn [cdio read_speed].
  split; [reflexivity|]. split; [reflexivity|].
  unfold warnings; cbn [log]; rewrite filter_app; reflexivity.
Qed.

(** X14: a read speed takes effect at the next open, and the last value
    written is the one that counts.  Writing the property makes no call into
    the drive; when a disc with tracks is then opened under libcdio 76 or
    later, the one cdio_set_speed call carries the value written last, if
    that is not -1. *)
Theorem last_written_speed_is_applied_by_next_open
    (src : GstCdioCddaSrc CdIo) (device : string) (p : CdIo) (v0 v : Z) :
  cdio src = None ->
  cdio_open device DRIVER_UNKNOWN = Some p ->
  audio_discmode (cdio_get_discmode p) = true ->
  0 < cdio_get_num_tracks p ->
  0 <= cdio_get_first_track_num p ->
  76 <= LIBCDIO_VERSION_NUM ->
  v <> -1 ->
  exists s0 s1 s2,
    gst_cdio_cdda_src_set_property PROP_READ_SPEED v0 src = Some (tt, s0) /\
    gst_cdio_cdda_src_set_property PROP_READ_SPEED v s0 = Some (tt, s1) /\
    drive s1 = drive src /\
    gst_cdio_cdda_src_open (Some device) s1 = Some (TRUE, s2) /\
    drive s2 = drive src ++ [call_set_speed p v].
Proof.
  intros Hnull Hopen Hmode Hn Hf Hver Hv.
  pose (s1 := {| cdio := cdio src; read_speed := v; tracks := tracks src;
                 bus := bus src; log := log src; drive := drive src;
                 unreffed := unreffed src |}).
  destruct (open_with_tracks s1 device p Hnull Hopen Hmode Hn Hf)
    as (s2 & E & _ & _ & _ & _ & Hd & _).
  exists {| cdio := cdio src; read_speed := v0; tracks := tracks src;
            bus := bus src; log := log src; drive := drive src;
            unreffed := unreffed src |}, s1, s2.
  split; [reflexivity|]. split; [reflexivity|].
  split; [reflexivity|]. split; [exact E|].
  rewrite Hd. cbn [drive read_speed s1]. unfold speed_calls.
  replace (v =? -1) with false by (symmetry; apply Z.eqb_neq; exact Hv).
  replace (76 <=? LIBCDIO_VERSION_NUM) with true
    by (symmetry; apply Z.leb_le; exact Hver).
  reflexivity.
Qed.

(** A loop that only logs leaves the drive and the released buffers alone. *)
Lemma log_loop_keeps_effects {T} (f : T -> LogLine) (l : list T) :
  forall src src' : GstCdioCddaSrc CdIo,
    for_each (fun x => GST_LOG (f x)) l src = Some (tt, src') ->
    drive src' = drive src /\ unreffed src' = unreffed src /\
    bus src' = bus src /\ cdio src' = cdio src /\
    read_speed src' = read_speed src /\ tracks src' = tracks src.
Proof.
  induction l as [|x l IH]; intros src src'; cbn [for_each].
  - intros E; injection E as <-. repeat split.
  - unfold bind at 1. unfold GST_LOG at 1. intros E.
    apply IH in E. cbn in E. exact E.
Qed.

(** Both device queries return and leave everything but the log alone. *)
Lemma device_queries_frame (src : GstCdioCddaSrc CdIo) :
  (exists r src',
     gst_cdio_cdda_src_probe_devices src = Some (r, src') /\
     cdio src' = cdio src /\ read_speed src' = read_speed src /\
     tracks src' = tracks src /\ bus src' = bus src /\
     drive src' = drive src /\ unreffed src' = unreffed src) /\
  (exists src',
     gst_cdio_cdda_src_get_default_device src
       = Some (cdio_get_default_device (cdio src), src') /\
     cdio src' = cdio src /\ read_speed src' = read_speed src /\
     tracks src' = tracks src /\ bus src' = bus src /\
     drive src' = drive src /\ unreffed src' = unreffed src).
Proof.
  split.
  - unfold gst_cdio_cdda_src_probe_devices.
    destruct (cdio_get_devices DRIVER_DEVICE) as [[|d ds]|].
    + run. eexists _, _. split; [reflexivity|]. cbn. repeat split.
    + destruct (log_loop_returns log_device (d :: ds) src) as (s & E & _).
      destruct (log_loop_keeps_effects _ _ _ _ E)
        as (Hd & Hu & Hb & Hc & Hs & Ht).
      unfold bind at 1. rewrite E. run.
      eexists _, _. split; [reflexivity|]. repeat split; assumption.
    + run. eexists _, _. split; [reflexivity|]. cbn. repeat split.
  - unfold gst_cdio_cdda_src_get_default_device. run.
    eexists. split; [reflexivity|]. cbn. repeat split.
Qed.

(** X15: the two device queries only look.  probe_devices and
    get_default_device return in any state of the element, with or without
    a handle; get_default_device passes the current handle, null or not, to
    the library and returns its answer; neither changes the handle, the read
    speed, the track list, the bus, the drive or the released buffers. *)
Theorem device_queries_only_look (src : GstCdioCddaSrc CdIo) :
  (exists r src',
     gst_cdio_cdda_src_probe_devices src = Some (r, src') /\
     cdio src' = cdio src /\ read_speed src' = read_speed src /\
     tracks src' = tracks src /\ bus src' = bus src /\
     drive src' = drive src /\ unreffed src' = unreffed src) /\
  (exists src',
     gst_cdio_cdda_src_get_default_device src
       = Some (cdio_get_default_device (cdio src), src') /\
     cdio src' = cdio src /\ read_speed src' = read_speed src /\
     tracks src' = tracks src /\ bus src' = bus src /\
     drive src' = drive src /\ unreffed src' = unreffed src).
Proof. exact (device_queries_frame src). Qed.

End PropertiesAndOpen.

Section Invariants.

Context {CdIo : Type} {L : Libcdio CdIo} {H : GstHost}.

(** The property accessors, reached through the host, leave the bus and
    the released buffers alone. *)
Lemma property_access_keeps_bus (policy : RangePolicy) (prop_id v : Z)
    (src : GstCdioCddaSrc CdIo) :
  (forall s, g_object_set_property policy prop_id v src = Some (tt, s) ->
             bus s = bus src /\ unreffed s = unreffed src) /\
  (forall r s, g_object_get_property prop_id src = Some (r, s) ->
               bus s = bus src /\ unreffed s = unreffed src).
Proof.
  split.
  - intros s.
    unfold g_object_set_property, find_property, gst_cdio_cdda_src_class_init.
    cbn [find fst snd].
    destruct (PROP_READ_SPEED =? prop_id);
      [|intros E; injection E as <-; split; reflexivity].
    destruct (g_param_value_validate policy _ v);
      [|intros E; injection E as <-; split; reflexivity].
    unfold gst_cdio_cdda_src_set_property.
    destruct (prop_id =? PROP_READ_SPEED); run;
      intros E; injection E as <-; split; reflexivity.
  - intros r s.
    unfold g_object_get_property, find_property, gst_cdio_cdda_src_class_init.
    cbn [find fst snd].
    destruct (PROP_READ_SPEED =? prop_id);
      [|intros E; injection E as _ <-; split; reflexivity].
    unfold gst_cdio_cdda_src_get_property.
    destruct (prop_id =? PROP_READ_SPEED); run;
      intros E; injection E as _ <-; split; reflexivity.
Qed.

(** What one completed call can add to the bus and to the released
    buffers: nothing; or one message that is no read failure; or one read
    failure together with one released buffer. *)
Lemma perform_bus (policy : RangePolicy) (c : HostCall)
    (src src' : GstCdioCddaSrc CdIo) :
  perform policy c src = Some src' ->
  (bus src' = bus src /\ unreffed src' = unreffed src) \/
  (exists m, is_read_error m = false /\
             bus src' = bus src ++ [m] /\ unreffed src' = unreffed src) \/
  (exists m buf, is_read_error m = true /\
                 bus src' = bus src ++ [m] /\
                 unreffed src' = unreffed src ++ [buf]).
Proof.
  destruct c as [device| |sector| | |prop_id v|prop_id]; cbn [perform].
  - destruct (gst_cdio_cdda_src_open device src) as [[r s]|] eqn:E;
      cbn; [|discriminate].
    intros E'; injection E' as <-.
    destruct (open_returned _ _ _ _ E) as (d & -> & Hnull).
    destruct (open_cases src d Hnull) as (r' & s' & E' & _ & _ & Hu & Hpath).
    rewrite E in E'. injection E' as <- <-.
    destruct (cdio_open d DRIVER_UNKNOWN) as [p|].
    + destruct (audio_discmode (cdio_get_discmode p)).
      * left. tauto.
      * right; left. destruct Hpath as (_ & _ & _ & Hb).
        eexists. split; [|split; [exact Hb | exact Hu]]. reflexivity.
    + right; left. destruct Hpath as (_ & _ & _ & Hb).
      eexists. split; [|split; [exact Hb | exact Hu]]. reflexivity.
  - destruct (gst_cdio_cdda_src_close src) as [[[] s]|] eqn:E;
      cbn; [|discriminate].
    intros E'; injection E' as <-.
    destruct (cdio src) as [p|] eqn:Hheld.
    + destruct (close_cases src p Hheld) as (s' & E' & _ & _ & _ & _ & Hb & _ & Hu).
      rewrite E in E'. injection E' as <-. left. split; assumption.
    + rewrite (close_aborts_without_handle src Hheld) in E. discriminate E.
  - destruct (read_sector_cases src sector)
      as (r & s & E & _ & _ & _ & _ & Hcases).
    rewrite E. cbn. intros E'; injection E' as <-.
    destruct Hcases as [(_ & _ & _ & Hb & Hu)
                       |[(_ & _ & _ & Hb & Hu)|(_ & _ & Hb & Hu)]].
    + left. split; assumption.
    + right; right. eexists _, _. split; [|split; [exact Hb | exact Hu]].
      reflexivity.
    + left. split; assumption.
  - destruct (device_queries_frame src) as ((r & s & E & Hf) & _).
    rewrite E. cbn. intros E'; injection E' as <-. left. tauto.
  - destruct (device_queries_frame src) as (_ & (s & E & Hf)).
    rewrite E. cbn. intros E'; injection E' as <-. left. tauto.
  - destruct (g_object_set_property policy prop_id v src) as [[[] s]|] eqn:E;
      cbn; [|discriminate].
    intros E'; injection E' as <-. left.
    apply (proj1 (property_access_keeps_bus policy prop_id v src) _ E).
  - destruct (g_object_get_property prop_id src) as [[r s]|] eqn:E;
      cbn; [|discriminate].
    intros E'; injection E' as <-. left.
    apply (proj2 (property_access_keeps_bus policy prop_id 0 src) _ _ E).
Qed.

(** X17: released buffers and read failures go together.  In every state
    the element can reach, the number of buffers it has released equals the
    number of read failures it has posted: a buffer is released only for a
    failed library read, and every such failure releases its buffer. *)
Theorem released_buffers_match_read_failures
    (policy : RangePolicy) (src : GstCdioCddaSrc CdIo) :
  Reachable policy src ->
  List.length (unreffed src) = read_failures_posted src.
Proof.
  intros Hreach. unfold read_failures_posted.
  induction Hreach as [|src src' c _ IH Hstep]; [reflexivity|].
  destruct (perform_bus policy c src src' Hstep)
    as [(Hb & Hu)|[(m & Hm & Hb & Hu)|(m & buf & Hm & Hb & Hu)]];
    rewrite Hb, Hu.
  - exact IH.
  - rewrite filter_app, length_app. cbn [filter]. rewrite Hm. cbn. lia.
  - rewrite filter_app, !length_app. cbn [filter]. rewrite Hm. cbn. lia.
Qed.

End Invariants.

Section ReadLog.

Context {CdIo : Type} {L : Libcdio CdIo} {H : GstHost}.

(** X18: what a read leaves in the log.  A successful read logs nothing; a
    failed library read logs one warning naming the sector; a refused
    allocation logs one debug line with the flow return and no warning. *)
Theorem read_sector_log (src : GstCdioCddaSrc CdIo) (sector : Z) :
  let flowret := fst (gst_pad_alloc_buffer CDIO_CD_FRAMESIZE_RAW) in
  let got := cdio_read_audio_sector (cdio src) sector in
  exists r src',
    gst_cdio_cdda_src_read_sector sector src = Some (r, src') /\
    ((flowret = GST_FLOW_OK /\ read_rc got = 0 /\ log src' = log src) \/
     (flowret = GST_FLOW_OK /\ read_rc got <> 0 /\
      log src' = log src ++ [log_read_failed sector] /\
      warnings src' = warnings src ++ [log_read_failed sector]) \/
     (flowret <> GST_FLOW_OK /\
      log src' = log src ++ [log_pad_alloc_failed flowret] /\
      warnings src' = warnings src)).
Proof.
  cbv zeta. unfold gst_cdio_cdda_src_read_sector.
  destruct (gst_pad_alloc_buffer CDIO_CD_FRAMESIZE_RAW) as [flowret buf0].
  cbn [fst snd].
  destruct (flowret =? GST_FLOW_OK) eqn:Ef; cbn [negb].
  - apply Z.eqb_eq in Ef. run.
    destruct (read_rc (cdio_read_audio_sector (cdio src) sector) =? 0) eqn:Er;
      cbn [negb].
    + apply Z.eqb_eq in Er. eexists _, _. split; [reflexivity|].
      left. repeat split; assumption.
    + apply Z.eqb_neq in Er. eexists _, _. split; [reflexivity|].
      right; left. cbn [log]. unfold warnings; cbn [log].
      rewrite filter_app. repeat split; assumption.
  - apply Z.eqb_neq in Ef. run. eexists _, _. split; [reflexivity|].
    right; right. cbn [log]. unfold warnings; cbn [log].
    rewrite filter_app. cbn. rewrite app_nil_r. repeat split; assumption.
Qed.

End ReadLog.

(** ** The further results on the concrete drive bay *)

(** The audio disc opens: TRUE, the handle is held, nothing is posted. *)
Lemma open_succeeds_iff_audio_disc_witness :
  exists src',
    gst_cdio_cdda_src_open (L := Scenario.libcdio 76 (-1))
      (Some "/dev/cdrom"%string) Scenario.fresh = Some (TRUE, src') /\
    cdio src' = Some Scenario.audio_cd /\ bus src' = bus Scenario.fresh.
Proof.
  destruct (open_succeeds_iff_audio_disc (L := Scenario.libcdio 76 (-1))
              Scenario.fresh "/dev/cdrom")
    as (r & src' & E & Hc & Hiff & Hb & _); [reflexivity|].
  assert (Hr : r = TRUE).
  { apply Hiff. exists Scenario.audio_cd. split; reflexivity. }
  subst r. exists src'. repeat split; [exact E | exact Hc | exact (Hb eq_refl)].
Defined.

(** The data disc is refused with its disc mode in the message. *)
Lemma open_failure_is_reported_witness :
  exists src',
    gst_cdio_cdda_src_open (L := Scenario.libcdio 76 (-1))
      (Some "/dev/dvd"%string) Scenario.fresh = Some (FALSE, src') /\
    tracks src' = tracks Scenario.fresh /\ drive src' = drive Scenario.fresh /\
    bus src' = bus Scenario.fresh ++
      [open_error "Disc is not an Audio CD."
         (debug_discmode CDIO_DISC_MODE_CD_DATA)].
Proof.
  apply (proj2 (open_failure_is_reported (L := Scenario.libcdio 76 (-1))
                  Scenario.fresh "/dev/dvd" eq_refl) Scenario.data_cd);
    reflexivity.
Defined.

(** The audio disc: two descriptors, numbered 1 and 2. *)
Lemma open_hands_over_every_reported_track_witness :
  exists src' ts,
    gst_cdio_cdda_src_open (L := Scenario.libcdio 76 (-1))
      (Some "/dev/cdrom"%string) Scenario.fresh = Some (TRUE, src') /\
    tracks src' = tracks Scenario.fresh ++ ts /\
    Z.of_nat (List.length ts) = 2 /\
    forall (i : nat) (t : GstCddaBaseSrcTrack),
      nth_error ts i = Some t ->
      1 + Z.of_nat i <= G_MAXINT -> num t = 1 + Z.of_nat i.
Proof.
  apply (open_hands_over_every_reported_track (L := Scenario.libcdio 76 (-1))
           Scenario.fresh "/dev/cdrom" Scenario.audio_cd);
    vm_compute; (reflexivity || discriminate).
Defined.

(** The audio disc's two tracks, one audio and one data: both are handed
    over. *)
Lemma track_is_audio_iff_audio_format_witness :
  exists src' ts,
    gst_cdio_cdda_src_open (L := Scenario.libcdio 76 (-1))
      (Some "/dev/cdrom"%string) Scenario.fresh = Some (TRUE, src') /\
    tracks src' = tracks Scenario.fresh ++ ts /\
    Z.of_nat (List.length ts) = 2 /\
    forall i : nat,
      Z.of_nat i < 2 ->
      exists t,
        nth_error ts i = Some t /\
        let format :=
          Scenario.track_format Scenario.audio_cd (to_gint (Z.of_nat i + 1)) in
        (is_audio t = true <-> format = TRACK_FORMAT_AUDIO) /\
        (format <> TRACK_FORMAT_AUDIO -> is_audio t = false).
Proof.
  apply (track_is_audio_iff_audio_format (L := Scenario.libcdio 76 (-1))
           Scenario.fresh "/dev/cdrom" Scenario.audio_cd);
    vm_compute; (reflexivity || discriminate).
Defined.

(** The audio disc under libcdio 75: no descriptor carries tags. *)
Lemma track_without_cdtext_has_no_tags_witness :
  exists src' ts,
    gst_cdio_cdda_src_open (L := Scenario.libcdio 75 (-1))
      (Some "/dev/cdrom"%string) Scenario.fresh = Some (TRUE, src') /\
    tracks src' = tracks Scenario.fresh ++ ts /\
    forall (i : nat) (t : GstCddaBaseSrcTrack),
      nth_error ts i = Some t -> tags t = None.
Proof.
  destruct (track_without_cdtext_has_no_tags (L := Scenario.libcdio 75 (-1))
              Scenario.fresh "/dev/cdrom" Scenario.audio_cd)
    as (r & src' & ts & E & Hiff & Ht & Htags); [reflexivity | reflexivity |].
  assert (Hr : r = TRUE) by (apply Hiff; reflexivity).
  subst r. exists src', ts. split; [exact E|]. split; [exact Ht|].
  intros i t Hi. apply (Htags i t Hi). left. vm_compute. reflexivity.
Defined.

(** Opening the audio disc with read speed 4: one call, no destroy. *)
Lemma open_never_destroys_witness :
  exists calls,
    drive (Scenario.opened 76 (-1) 4)
      = drive (Scenario.fresh_with_speed 4) ++ calls /\
    (List.length calls <= 1)%nat /\
    existsb is_destroy calls = false.
Proof.
  apply (open_never_destroys (L := Scenario.libcdio 76 (-1))
           (Scenario.fresh_with_speed 4) (Scenario.opened 76 (-1) 4)
           (Some "/dev/cdrom"%string) TRUE).
  vm_compute. reflexivity.
Defined.

(** The data disc: refused, closed, and refused again. *)
Lemma close_allows_reopen_witness :
  exists r s1 s2 s3,
    gst_cdio_cdda_src_open (L := Scenario.libcdio 76 (-1))
      (Some "/dev/dvd"%string) Scenario.fresh = Some (r, s1) /\
    gst_cdio_cdda_src_close s1 = Some (tt, s2) /\
    drive s2 = drive s1 ++ [call_destroy Scenario.data_cd] /\
    gst_cdio_cdda_src_open (L := Scenario.libcdio 76 (-1))
      (Some "/dev/dvd"%string) s2 = Some (r, s3) /\
    cdio s3 = Some Scenario.data_cd.
Proof.
  apply (close_allows_reopen (L := Scenario.libcdio 76 (-1))
           Scenario.fresh "/dev/dvd" Scenario.data_cd); reflexivity.
Defined.

(** Sector 500 of the audio disc: the buffer is the frame the library
    stored. *)
Lemma read_sector_returns_what_the_library_stored_witness :
  allocates_requested_size Scenario.linked_pad /\
  gst_cdio_cdda_src_read_sector (L := Scenario.libcdio 76 (-1))
    (H := Scenario.linked_pad) 500 (Scenario.opened 76 (-1) (-1))
    = Some (Some Scenario.frame, Scenario.opened 76 (-1) (-1)) /\
  Scenario.frame
    = read_stored (Scenario.read_audio_sector (-1) (Some Scenario.audio_cd) 500).
Proof.
  split; [exact linked_pad_allocates|].
  assert (E : gst_cdio_cdda_src_read_sector (L := Scenario.libcdio 76 (-1))
                (H := Scenario.linked_pad) 500 (Scenario.opened 76 (-1) (-1))
              = Some (Some Scenario.frame, Scenario.opened 76 (-1) (-1)))
    by (vm_compute; reflexivity).
  split; [exact E|].
  apply (read_sector_returns_what_the_library_stored
           (L := Scenario.libcdio 76 (-1)) (H := Scenario.linked_pad)
           _ _ 500 Scenario.frame linked_pad_allocates E).
  vm_compute. reflexivity.
Defined.

(** Property id 7 is not installed. *)
Lemma unknown_property_id_is_refused_witness :
  exists s1 s2,
    gst_cdio_cdda_src_set_property 7 50 Scenario.fresh = Some (tt, s1) /\
    read_speed s1 = read_speed Scenario.fresh /\
    cdio s1 = cdio Scenario.fresh /\
    warnings s1 = warnings Scenario.fresh ++ [log_invalid_property_id 7] /\
    gst_cdio_cdda_src_get_property 7 Scenario.fresh = Some (None, s2) /\
    read_speed s2 = read_speed Scenario.fresh /\
    cdio s2 = cdio Scenario.fresh /\
    warnings s2 = warnings Scenario.fresh ++ [log_invalid_property_id 7].
Proof.
  apply (unknown_property_id_is_refused Scenario.fresh 7 50).
  vm_compute. discriminate.
Defined.

(** Speed 8 is written, then speed 4; the open applies 4. *)
Lemma last_written_speed_is_applied_by_next_open_witness :
  exists s0 s1 s2,
    gst_cdio_cdda_src_set_property PROP_READ_SPEED 8 Scenario.fresh
      = Some (tt, s0) /\
    gst_cdio_cdda_src_set_property PROP_READ_SPEED 4 s0 = Some (tt, s1) /\
    drive s1 = drive Scenario.fresh /\
    gst_cdio_cdda_src_open (L := Scenario.libcdio 76 (-1))
      (Some "/dev/cdrom"%string) s1 = Some (TRUE, s2) /\
    drive s2 = drive Scenario.fresh ++ [call_set_speed Scenario.audio_cd 4].
Proof.
  apply (last_written_speed_is_applied_by_next_open
           (L := Scenario.libcdio 76 (-1))
           Scenario.fresh "/dev/cdrom" Scenario.audio_cd 8 4);
    vm_compute; (reflexivity || discriminate).
Defined.

(** A life of four calls: write speed 4, open the audio disc, read sector
    500, read sector 5000 (which fails). *)
Lemma failed_read_is_reachable :
  Reachable (L := Scenario.libcdio 76 (-1)) (H := Scenario.linked_pad) Reject
    (Scenario.after_failed_read 76 (-1) 4).
Proof.
  apply (reach_step Reject (Scenario.opened 76 (-1) 4) _ (host_read_sector 5000));
    [|vm_compute; reflexivity].
  apply (reach_step Reject (Scenario.opened 76 (-1) 4) _ (host_read_sector 500));
    [|vm_compute; reflexivity].
  apply (reach_step Reject (Scenario.fresh_with_speed 4) _
           (host_open (Some "/dev/cdrom"%string)));
    [|vm_compute; reflexivity].
  apply (reach_step Reject gst_cdio_cdda_src_init _
           (host_set_property PROP_READ_SPEED 4));
    [apply reach_init | vm_compute; reflexivity].
Qed.

Lemma released_buffers_match_read_failures_witness :
  read_failures_posted (Scenario.after_failed_read 76 (-1) 4) = 1%nat /\
  List.length (unreffed (Scenario.after_failed_read 76 (-1) 4))
    = read_failures_posted (Scenario.after_failed_read 76 (-1) 4).
Proof.
  split; [vm_compute; reflexivity|].
  apply (released_buffers_match_read_failures (L := Scenario.libcdio 76 (-1))
           (H := Scenario.linked_pad) Reject).
  exact failed_read_is_reachable.
Defined.
